(** * convert_colmap2mesh: the COLMAP-to-mesh pipeline orchestrator

    A shallow embedding of [src/convert_colmap2mesh.py].  The script is a
    sequence of library calls on the file system, on the command search
    path and on external OpenMVS tools, interleaved with prints and
    [sys.exit].  It is modelled as a state-and-exit monad over a [world]
    made of the file system, the text printed so far and the trace of
    host interactions. *)

From Stdlib Require Import QArith Ascii String.
From stdpp Require Import gmap strings list fin_maps pretty.

Local Open Scope Z_scope.
Local Open Scope string_scope.
Local Open Scope list_scope.

(** ** Paths and the file system *)

(** A path is the list of its components below the root.  The file system
    maps the paths that exist to their node.  A symbolic link is followed
    when it sits at the path handed to a call (as [stat] does); the model
    has no nodes below a link, so paths are taken to be canonical in their
    proper ancestors: a path with a link above its last component is
    looked up as written and found missing, where the system would go
    through the link.  Every path may be searched, read and written:
    there are no permissions, and no limits on the length of names. *)
Abbreviation path := (list string).

Inductive node :=
| File (content : string)
| Dir
| Symlink (target : path).

#[global] Instance node_eq_dec : EqDecision node.
Proof. solve_decision. Defined.

Abbreviation fs := (gmap path node).

(** [p / name] of pathlib, and [os.path.join] on one component. *)
Definition joinpath (p : path) (name : string) : path := p ++ [name].
Infix "//" := joinpath (at level 40, left associativity).

Definition show_path (p : path) : string := "/" +:+ String.concat "/" p.

(** The root always exists and is a directory. *)
Definition lstat (σ : fs) (p : path) : option node :=
  match p with
  | [] => Some Dir
  | _ => σ !! p
  end.

(** The kernel gives up after 40 links. *)
Definition MAXSYMLINKS : nat := 40.

(** Follow the links sitting at [p]; [None] on a loop. *)
Fixpoint chase (fuel : nat) (σ : fs) (p : path) : option path :=
  match lstat σ p with
  | Some (Symlink t) =>
      match fuel with
      | O => None
      | S fuel' => chase fuel' σ t
      end
  | _ => Some p
  end.

Definition stat (σ : fs) (p : path) : option node :=
  q ← chase MAXSYMLINKS σ p; lstat σ q.

(** [Path.exists] and [os.path.exists]: false on a dangling link. *)
Definition path_exists (σ : fs) (p : path) : bool :=
  bool_decide (is_Some (stat σ p)).

Definition is_dir (σ : fs) (p : path) : bool :=
  bool_decide (stat σ p = Some Dir).

Definition is_symlink (σ : fs) (p : path) : bool :=
  match lstat σ p with
  | Some (Symlink _) => true
  | _ => false
  end.

Definition parent (p : path) : path := removelast p.

(** ** Glob patterns *)

(** [fnmatch] on the characters of a name: [*] matches any run of
    characters, [?] any one character, anything else itself, with case
    significant as on POSIX.  (Bracket classes do not occur in the
    patterns of this program.) *)
Fixpoint fnmatch (pat : list ascii) : list ascii → bool :=
  match pat with
  | [] => λ name, match name with [] => true | _ => false end
  | c :: pat' =>
      if Ascii.eqb c "*"%char then
        fix star (name : list ascii) : bool :=
          fnmatch pat' name ||
          match name with
          | [] => false
          | _ :: name' => star name'
          end
      else if Ascii.eqb c "?"%char then
        λ name, match name with
                | [] => false
                | _ :: name' => fnmatch pat' name'
                end
      else
        λ name, match name with
                | [] => false
                | d :: name' => Ascii.eqb c d && fnmatch pat' name'
                end
  end.

Definition chars (s : string) : list ascii := list_ascii_of_string s.

(** The name of [k] when [k] is an entry of directory [d]. *)
Definition entry_of (d k : path) : option string :=
  match drop (length d) k with
  | [name] => if bool_decide (take (length d) k = d) then Some name else None
  | _ => None
  end.

Definition scandir (σ : fs) (d : path) : list string :=
  omap (λ kn, entry_of d kn.1) (map_to_list σ).

(** [Path.glob pattern] for a pattern of one component: the entries of the
    directory whose name matches. *)
Definition glob_names (σ : fs) (dir : path) (pattern : string) : list path :=
  match chase MAXSYMLINKS σ dir with
  | Some d =>
      if bool_decide (lstat σ d = Some Dir) then
        (λ name, dir // name) <$>
          filter (λ name, fnmatch (chars pattern) (chars name) = true) (scandir σ d)
      else []
  | None => []
  end.

(** ** Cameras and reconstructions (pycolmap) *)

(** Intrinsic parameters are floats in the source; the conversion only
    moves them around, takes a maximum of two integers and halves an
    integer, so exact rationals stand for them. *)
Record Camera := mkCamera {
  camera_id : Z;
  model : string;
  width : Z;
  height : Z;
  params : list Q
}.

Record Reconstruction := mkReconstruction {
  cameras : list (Z * Camera);   (* [cameras.items()], in iteration order *)
  images : string;               (* the pose table, opaque *)
  points3D : string              (* the point table, opaque *)
}.

(** ** The host *)

(** JSON values as far as the progress record needs them. *)
Inductive jvalue :=
| JBool (b : bool)
| JInt (n : Z)
| JStr (s : string).

(** An object, as the ordered list of its fields. *)
Definition json : Type := list (string * jvalue).

Inductive exn :=
| CalledProcessError (cmd : list string) (returncode : Z) (output : string)
| FileNotFoundError (p : path)
| FileExistsError (p : path)
| NotADirectoryError (p : path)
| IsADirectoryError (p : path)
| SymlinkLoopError (p : path)
| RmtreeOnSymlink (p : path)
| IndexError
| ReconstructionLoadError (p : path).

(** What the process asked of its host, and what it did to it.  The
    event of an external command carries the file system as the command
    left it. *)
Inductive event :=
| EvWhich (cmd : string) (found : bool)
| EvStat (p : path)
| EvGlob (dir : path) (pattern : string)
| EvResolve (p : path)
| EvMakedirs (p : path)
| EvUnlink (p : path)
| EvRmtree (p : path)
| EvSymlink (p : path) (target : path)
| EvWrite (p : path) (content : string)
| EvLoadReconstruction (p : path)
| EvCopytree (src dst : path)
| EvRun (cmd : list string) (cwd : path) (returncode : Z) (after : fs).

#[global] Instance event_eq_dec : EqDecision event.
Proof. solve_decision. Defined.

(** The parts of the host that are not this program: the search path, the
    external tools (each a function of its command line, working directory
    and the file system, giving its exit code, its combined output and the
    file system it leaves), the current directory, pycolmap's binary
    format, and the encoder of the json module ([json.dump] with
    [indent=2]). *)
Class Host := {
  which : string → bool;
  exec : list string → path → fs → Z * string * fs;
  getcwd : path;
  parse_reconstruction : string → string → string → option Reconstruction;
  dump_cameras : list (Z * Camera) → string;
  json_dump : json → string
}.

Record world := mkWorld {
  files : fs;
  stdout : list string;
  trace : list event
}.

Inductive outcome (A : Type) :=
| Ret (a : A)
| Exit (code : Z)
| Raise (e : exn).
Arguments Ret {A} a.
Arguments Exit {A} code.
Arguments Raise {A} e.

(** The status the interpreter hands back to the shell: 0 on a normal
    return, the argument of [sys.exit], and 1 on an uncaught exception. *)
Definition exit_status {A} (o : outcome A) : Z :=
  match o with
  | Ret _ => 0
  | Exit c => c
  | Raise _ => 1
  end.

Definition M (A : Type) : Type := world → outcome A * world.

#[global] Instance M_ret : MRet M := λ A a w, (Ret a, w).
#[global] Instance M_bind : MBind M := λ A B k m w,
  match m w with
  | (Ret a, w') => k a w'
  | (Exit c, w') => (Exit c, w')
  | (Raise e, w') => (Raise e, w')
  end.

Definition sys_exit {A} (code : Z) : M A := λ w, (Exit code, w).
Definition raise {A} (e : exn) : M A := λ w, (Raise e, w).

Definition print (s : string) : M unit := λ w,
  (Ret tt, mkWorld (files w) (stdout w ++ [s]) (trace w)).

Definition emit (e : event) : M unit := λ w,
  (Ret tt, mkWorld (files w) (stdout w) (trace w ++ [e])).

Definition get_files : M fs := λ w, (Ret (files w), w).

(** The world at process start. *)
Definition boot (σ : fs) : world := mkWorld σ [] [].

Definition nl : string := String "010"%char "".
Definition rule : string := String.concat "" (replicate 80 "=").

(** ** Library calls *)

(** The pure effect of each call on the file system, or the exception it
    raises.  A call that would create a node below a link is refused, in
    keeping with canonical paths. *)
Definition mkdir (σ : fs) (p : path) : fs + exn :=
  match lstat σ p with
  | Some _ => inr (FileExistsError p)
  | None =>
      if bool_decide (lstat σ (parent p) = Some Dir)
      then inl (<[p := Dir]> σ)
      else inr (FileNotFoundError p)
  end.

(** [os.makedirs(name, exist_ok=True)], on the reversed path: create the
    missing head first, then the leaf, and accept a leaf that is already
    a directory. *)
Fixpoint makedirs_rev (σ : fs) (rp : list string) : fs + exn :=
  match rp with
  | [] => inl σ
  | _ :: rhead =>
      let prepared :=
        if path_exists σ (rev rhead) then inl σ
        else match makedirs_rev σ rhead with
             | inr (FileExistsError _) => inl σ
             | r => r
             end in
      match prepared with
      | inr e => inr e
      | inl σ1 =>
          match mkdir σ1 (rev rp) with
          | inl σ2 => inl σ2
          | inr e => if is_dir σ1 (rev rp) then inl σ1 else inr e
          end
      end
  end.

Definition makedirs (σ : fs) (p : path) : fs + exn := makedirs_rev σ (rev p).

(** [Path.unlink]. *)
Definition unlink (σ : fs) (p : path) : fs + exn :=
  match lstat σ p with
  | Some Dir => inr (IsADirectoryError p)
  | Some _ => inl (delete p σ)
  | None => inr (FileNotFoundError p)
  end.

(** [shutil.rmtree]: refuses a link, removes a directory with all below. *)
Definition rmtree (σ : fs) (p : path) : fs + exn :=
  match lstat σ p with
  | Some (Symlink _) => inr (RmtreeOnSymlink p)
  | Some Dir => inl (filter (λ kn, ¬ p `prefix_of` kn.1) σ)
  | Some (File _) => inr (NotADirectoryError p)
  | None => inr (FileNotFoundError p)
  end.

(** [Path.symlink_to]. *)
Definition symlink_to (σ : fs) (p target : path) : fs + exn :=
  match lstat σ p with
  | Some _ => inr (FileExistsError p)
  | None =>
      if bool_decide (lstat σ (parent p) = Some Dir)
      then inl (<[p := Symlink target]> σ)
      else inr (FileNotFoundError p)
  end.

(** Opening [p] for writing follows the links at [p], then creates or
    truncates the file.  The parent must be a directory as written: a
    parent that is a link to a directory is refused, in keeping with
    canonical paths. *)
Definition write_file (σ : fs) (p : path) (content : string) : fs + exn :=
  match chase MAXSYMLINKS σ p with
  | None => inr (SymlinkLoopError p)
  | Some q =>
      match lstat σ q with
      | Some Dir => inr (IsADirectoryError q)
      | _ =>
          if bool_decide (lstat σ (parent q) = Some Dir)
          then inl (<[q := File content]> σ)
          else inr (FileNotFoundError q)
      end
  end.

Definition read_file (σ : fs) (p : path) : option string :=
  match stat σ p with
  | Some (File c) => Some c
  | _ => None
  end.

(** [shutil.copytree(src, dst, dirs_exist_ok=True)]: every node at or
    below [src] is copied to the same place below [dst]. *)
Definition copytree (σ : fs) (src dst : path) : fs + exn :=
  if is_dir σ src then
    inl (foldr (λ kn acc,
                  if bool_decide (src `prefix_of` kn.1)
                  then <[dst ++ drop (length src) kn.1 := kn.2]> acc
                  else acc)
               σ (map_to_list σ))
  else inr (NotADirectoryError src).

(** The three tables of a binary reconstruction. *)
Definition cameras_bin : string := "cameras.bin".
Definition images_bin : string := "images.bin".
Definition points3D_bin : string := "points3D.bin".

Definition foldM {A B} (f : B → A → M B) : B → list A → M B :=
  fix go (b : B) (l : list A) : M B :=
    match l with
    | [] => mret b
    | a :: l' => b' ← f b a; go b' l'
    end.

Definition for_ {A} (l : list A) (body : A → M unit) : M unit :=
  foldM (λ _ a, body a) tt l.

Section Program.
Context `{!Host}.

(** Lift a pure file-system effect, recording it when it happened. *)
Definition effect (e : event) (f : fs → fs + exn) : M unit := λ w,
  match f (files w) with
  | inl σ' => (Ret tt, mkWorld σ' (stdout w) (trace w ++ [e]))
  | inr x => (Raise x, w)
  end.

Definition shutil_which (cmd : string) : M bool :=
  emit (EvWhich cmd (which cmd));; mret (which cmd).

Definition exists_ (p : path) : M bool :=
  emit (EvStat p);; σ ← get_files; mret (path_exists σ p).

Definition is_symlink_ (p : path) : M bool :=
  emit (EvStat p);; σ ← get_files; mret (is_symlink σ p).

(** [Path.resolve()]. *)
Definition resolve (p : path) : M path :=
  emit (EvResolve p);;
  σ ← get_files;
  match chase MAXSYMLINKS σ p with
  | Some q => mret q
  | None => raise (SymlinkLoopError p)
  end.

Definition glob (dir : path) (pattern : string) : M (list path) :=
  emit (EvGlob dir pattern);; σ ← get_files; mret (glob_names σ dir pattern).

Definition os_makedirs (p : path) : M unit :=
  effect (EvMakedirs p) (λ σ, makedirs σ p).

(** [pycolmap.Reconstruction(dir)]. *)
Definition load_reconstruction (dir : path) : M Reconstruction :=
  emit (EvLoadReconstruction dir);;
  σ ← get_files;
  match read_file σ (dir // cameras_bin),
        read_file σ (dir // images_bin),
        read_file σ (dir // points3D_bin) with
  | Some c, Some i, Some p =>
      match parse_reconstruction c i p with
      | Some r => mret r
      | None => raise (ReconstructionLoadError dir)
      end
  | _, _, _ => raise (ReconstructionLoadError dir)
  end.

(** [reconstruction.write(dir)]: the directory must exist; the three
    tables are written into it. *)
Definition write_reconstruction (r : Reconstruction) (dir : path) : M unit :=
  σ ← get_files;
  if is_dir σ dir then
    effect (EvWrite (dir // cameras_bin) (dump_cameras (cameras r)))
           (λ σ, write_file σ (dir // cameras_bin) (dump_cameras (cameras r)));;
    effect (EvWrite (dir // images_bin) (images r))
           (λ σ, write_file σ (dir // images_bin) (images r));;
    effect (EvWrite (dir // points3D_bin) (points3D r))
           (λ σ, write_file σ (dir // points3D_bin) (points3D r))
  else raise (NotADirectoryError dir).

(** [subprocess.run(cmd, cwd=cwd, check=True, stdout=PIPE, stderr=STDOUT)]:
    the program must be found and the working directory must be one; a
    non-zero exit code raises, carrying the command and its output. *)
Definition subprocess_run (cmd : list string) (cwd : option path) : M string := λ w,
  let dir := default getcwd cwd in
  if negb (which (default "" (head cmd))) then
    (Raise (FileNotFoundError [default "" (head cmd)]), w)
  else if negb (is_dir (files w) dir) then
    (Raise (NotADirectoryError dir), w)
  else
    let '(code, out, σ') := exec cmd dir (files w) in
    let w' := mkWorld σ' (stdout w) (trace w ++ [EvRun cmd dir code σ']) in
    if bool_decide (code = 0) then (Ret out, w')
    else (Raise (CalledProcessError cmd code out), w').

(** ** The program *)

Record Args := mkArgs {
  scene_dir : path;
  no_texture : bool;
  max_face_area : Z;
  refine_scales : string;
  skip_if_exists : bool;
  keep_intermediate : bool
}.

Definition required_commands : list string :=
  ["colmap"; "InterfaceCOLMAP"; "DensifyPointCloud";
   "ReconstructMesh"; "RefineMesh"; "TextureMesh"].

Definition check_dependencies : M unit :=
  missing ← foldM (λ (missing : list string) (cmd : string),
                     found ← shutil_which cmd;
                     if (found : bool) then mret missing else mret (missing ++ [cmd]))
                  [] required_commands;
  if bool_decide (missing ≠ []) then
    print "Error: The following required commands are not found in PATH:";;
    for_ missing (λ cmd, print ("  - " +:+ cmd));;
    print (nl +:+ "Please install OpenMVS and COLMAP and ensure they are in your PATH.");;
    sys_exit 1
  else mret tt.

Definition run_command (cmd : list string) (cwd : option path)
    (description : string) : M bool :=
  (if bool_decide (description ≠ "") then
     print (nl +:+ rule);; print description;; print rule
   else mret tt);;
  print ("Running: " +:+ String.concat " " cmd);;
  print ("Working directory: " +:+ show_path (default getcwd cwd));;
  out ← subprocess_run cmd cwd;
  print out;;
  mret true.

Definition image_extensions : list string :=
  [".jpg"; ".jpeg"; ".png"; ".JPG"; ".JPEG"; ".PNG"].

Definition required_files : list string :=
  [cameras_bin; images_bin; points3D_bin].

Definition validate_input_structure (scene_dir : path) : M bool :=
  let scene_path := scene_dir in
  let images_dir := scene_path // "images" in
  have_images ← exists_ images_dir;
  (if negb (have_images : bool) then
     print ("Error: Images directory not found: " +:+ show_path images_dir);;
     sys_exit 1
   else mret tt);;
  image_files ← foldM (λ (image_files : list path) (ext : string),
                         found ← glob images_dir ("*" +:+ ext);
                         mret (image_files ++ found))
                      [] image_extensions;
  (if bool_decide (length image_files = 0%nat) then
     print ("Error: No images found in " +:+ show_path images_dir);;
     sys_exit 1
   else mret tt);;
  print ("Found " +:+ pretty (length image_files) +:+ " images in "
         +:+ show_path images_dir);;
  let sparse_dir := scene_path // "sparse" in
  have_sparse ← exists_ sparse_dir;
  (if negb (have_sparse : bool) then
     print ("Error: Sparse directory not found: " +:+ show_path sparse_dir);;
     sys_exit 1
   else mret tt);;
  for_ required_files (λ file,
    let file_path := sparse_dir // file in
    present ← exists_ file_path;
    if negb (present : bool) then
      print ("Error: Required file not found: " +:+ show_path file_path);;
      sys_exit 1
    else mret tt);;
  print ("Validated sparse reconstruction in " +:+ show_path sparse_dir);;
  mret true.

Definition _camera_model_name (camera : Camera) : string := model camera.

(** [params[i]]. *)
Definition index (params : list Q) (i : nat) : M Q :=
  match params !! i with
  | Some x => mret x
  | None => raise IndexError
  end.

(** [reconstruction.cameras[cam_id] = new_camera]. *)
Definition set_camera (cam_id : Z) (new_camera : Camera)
    (cams : list (Z * Camera)) : list (Z * Camera) :=
  (λ kc, if bool_decide (kc.1 = cam_id) then (cam_id, new_camera) else kc) <$> cams.

(** The body of the loop over [reconstruction.cameras.items()]: the
    camera that replaces [camera], or [None] when it is kept as it is. *)
Definition convert_camera (cam_id : Z) (camera : Camera) : M (option Camera) :=
  let model_name := _camera_model_name camera in
  if bool_decide (model_name ≠ "PINHOLE") then
    print ("  Converting camera " +:+ pretty cam_id +:+ " from " +:+ model_name
           +:+ " to PINHOLE");;
    let width := width camera in
    let height := height camera in
    let params := params camera in
    intrinsics ←
      (if bool_decide (model_name ∈ ["SIMPLE_PINHOLE"; "SIMPLE_RADIAL";
                                      "SIMPLE_RADIAL_FISHEYE"]) then
         f ← index params 0;
         cx ← index params 1;
         cy ← index params 2;
         mret (f, f, cx, cy)
       else if bool_decide (model_name ∈ ["PINHOLE"; "RADIAL"; "RADIAL_FISHEYE";
                                           "OPENCV"; "OPENCV_FISHEYE";
                                           "FULL_OPENCV"]) then
         fx ← index params 0;
         fy ← index params 1;
         cx ← index params 2;
         cy ← index params 3;
         mret (fx, fy, cx, cy)
       else
         print ("  Warning: Unknown camera model " +:+ model_name
                +:+ ", using fallback intrinsics");;
         mret (inject_Z (Z.max width height), inject_Z (Z.max width height),
               (inject_Z width / 2)%Q, (inject_Z height / 2)%Q));
    let '(fx, fy, cx, cy) := (intrinsics : Q * Q * Q * Q) in
    mret (Some (mkCamera cam_id "PINHOLE" width height [fx; fy; cx; cy]))
  else
    print ("  Camera " +:+ pretty cam_id +:+ " is already PINHOLE model");;
    mret None.

Definition convert_cameras_to_pinhole (sparse_dir output_dir : path) : M bool :=
  print "Converting cameras to PINHOLE model...";;
  reconstruction ← load_reconstruction sparse_dir;
  cams ← foldM (λ (cams : list (Z * Camera)) (item : Z * Camera),
                  new_camera ← convert_camera item.1 item.2;
                  match new_camera with
                  | Some c => mret (set_camera item.1 c cams)
                  | None => mret cams
                  end)
               (cameras reconstruction) (cameras reconstruction);
  os_makedirs output_dir;;
  write_reconstruction
    (mkReconstruction cams (images reconstruction) (points3D reconstruction))
    output_dir;;
  print ("  Saved PINHOLE cameras to " +:+ show_path output_dir);;
  mret true.

Definition step_undistort_images (scene_dir dense_dir : path) : M bool :=
  print (nl +:+ rule);;
  print "STEP 1: Preparing images and converting cameras to PINHOLE";;
  print rule;;
  let scene_path := scene_dir in
  let images_dir := scene_path // "images" in
  let sparse_dir := scene_path // "sparse" in
  os_makedirs dense_dir;;
  let dense_images_dir := dense_dir // "images" in
  let dense_sparse_dir := dense_dir // "sparse" in
  print "Creating symlink to original images...";;
  old ← exists_ dense_images_dir;
  (if (old : bool) then
     link ← is_symlink_ dense_images_dir;
     if (link : bool) then
       effect (EvUnlink dense_images_dir) (λ σ, unlink σ dense_images_dir)
     else
       effect (EvRmtree dense_images_dir) (λ σ, rmtree σ dense_images_dir)
   else mret tt);;
  target ← resolve images_dir;
  effect (EvSymlink dense_images_dir target)
         (λ σ, symlink_to σ dense_images_dir target);;
  print ("  Linked " +:+ show_path dense_images_dir +:+ " -> "
         +:+ show_path images_dir);;
  print "Converting cameras to PINHOLE model...";;
  converted ← convert_cameras_to_pinhole sparse_dir dense_sparse_dir;
  (if negb (converted : bool) then
     print "Warning: Could not convert cameras to PINHOLE model, copying original...";;
     effect (EvCopytree sparse_dir dense_sparse_dir)
            (λ σ, copytree σ sparse_dir dense_sparse_dir)
   else mret tt);;
  images_ok ← exists_ dense_images_dir;
  (if negb (images_ok : bool) then
     print ("Error: Images not accessible at " +:+ show_path dense_images_dir);;
     sys_exit 1
   else mret tt);;
  sparse_ok ← exists_ dense_sparse_dir;
  (if negb (sparse_ok : bool) then
     print ("Error: Sparse reconstruction not found at "
            +:+ show_path dense_sparse_dir);;
     sys_exit 1
   else mret tt);;
  print ("Images and cameras prepared successfully in " +:+ show_path dense_dir);;
  mret true.

Definition step_interface_colmap (dense_dir mvs_dir : path) : M path :=
  print (nl +:+ rule);;
  print "STEP 2: Converting COLMAP to MVS format";;
  print rule;;
  os_makedirs mvs_dir;;
  let scene_mvs := mvs_dir // "scene.mvs" in
  let images_dir := dense_dir // "images" in
  let cmd := ["InterfaceCOLMAP";
              "-i"; show_path dense_dir;
              "-o"; show_path scene_mvs;
              "--image-folder"; show_path images_dir] in
  success ← run_command cmd (Some mvs_dir) "Converting to MVS format";
  failed ← (if negb (success : bool) then mret true
            else made ← exists_ scene_mvs; mret (negb made));
  (if (failed : bool) then
     print "Error: COLMAP to MVS conversion failed";;
     sys_exit 1
   else mret tt);;
  print ("MVS scene file created: " +:+ show_path scene_mvs);;
  mret scene_mvs.

Definition step_densify_point_cloud (mvs_dir scene_mvs : path) : M path :=
  print (nl +:+ rule);;
  print "STEP 3: Densifying point cloud";;
  print rule;;
  let cmd := ["DensifyPointCloud"; "scene.mvs"] in
  success ← run_command cmd (Some mvs_dir) "Densifying point cloud";
  let dense_mvs := mvs_dir // "scene_dense.mvs" in
  failed ← (if negb (success : bool) then mret true
            else made ← exists_ dense_mvs; mret (negb made));
  (if (failed : bool) then
     print "Error: Point cloud densification failed";;
     sys_exit 1
   else mret tt);;
  print ("Dense point cloud created: " +:+ show_path dense_mvs);;
  mret dense_mvs.

Definition step_reconstruct_mesh (mvs_dir : path) : M path :=
  print (nl +:+ rule);;
  print "STEP 4: Reconstructing mesh";;
  print rule;;
  let cmd := ["ReconstructMesh"; "scene_dense.mvs"; "-p"; "scene_dense.ply"] in
  success ← run_command cmd (Some mvs_dir) "Reconstructing mesh";
  let mesh_ply := mvs_dir // "scene_dense_mesh.ply" in
  failed ← (if negb (success : bool) then mret true
            else made ← exists_ mesh_ply; mret (negb made));
  (if (failed : bool) then
     print "Error: Mesh reconstruction failed";;
     sys_exit 1
   else mret tt);;
  print ("Mesh reconstructed: " +:+ show_path mesh_ply);;
  mret mesh_ply.

Definition step_refine_mesh (mvs_dir : path) (max_face_area : Z)
    (refine_scales : string) : M path :=
  print (nl +:+ rule);;
  print "STEP 5: Refining mesh";;
  print rule;;
  let cmd := ["RefineMesh"; "scene_dense.mvs";
              "-m"; "scene_dense_mesh.ply";
              "-o"; "scene_dense_mesh_refine.mvs";
              "--scales"; refine_scales;
              "--max-face-area"; pretty max_face_area] in
  success ← run_command cmd (Some mvs_dir) "Refining mesh";
  let refined_mesh := mvs_dir // "scene_dense_mesh_refine.ply" in
  failed ← (if negb (success : bool) then mret true
            else made ← exists_ refined_mesh; mret (negb made));
  (if (failed : bool) then
     print "Error: Mesh refinement failed";;
     sys_exit 1
   else mret tt);;
  print ("Mesh refined: " +:+ show_path refined_mesh);;
  mret refined_mesh.

Definition step_texture_mesh (mvs_dir : path) : M path :=
  print (nl +:+ rule);;
  print "STEP 6: Applying texture to mesh";;
  print rule;;
  let cmd := ["TextureMesh"; "scene_dense.mvs";
              "-m"; "scene_dense_mesh_refine.ply";
              "-o"; "scene_dense_mesh_refine_texture.mvs"] in
  success ← run_command cmd (Some mvs_dir) "Texturing mesh";
  let textured_mesh := mvs_dir // "scene_dense_mesh_refine_texture.ply" in
  failed ← (if negb (success : bool) then mret true
            else made ← exists_ textured_mesh; mret (negb made));
  (if (failed : bool) then
     print "Error: Mesh texturing failed";;
     sys_exit 1
   else mret tt);;
  print ("Textured mesh created: " +:+ show_path textured_mesh);;
  mret textured_mesh.

Definition progress_record (args : Args) : json :=
  [("completed", JBool true);
   ("scene_dir", JStr (show_path (scene_dir args)));
   ("max_face_area", JInt (max_face_area args));
   ("refine_scales", JStr (refine_scales args));
   ("textured", JBool (negb (no_texture args)))].

Definition create_progress_file (mvs_dir : path) (args : Args) : M unit :=
  let progress := progress_record args in
  let progress_file := mvs_dir // "progress.json" in
  effect (EvWrite progress_file (json_dump progress))
         (λ σ, write_file σ progress_file (json_dump progress));;
  print (nl +:+ "Progress file saved: " +:+ show_path progress_file).

Definition cleanup_intermediate_files (dense_dir : path)
    (keep_intermediate : bool) : M unit :=
  if keep_intermediate then
    print (nl +:+ "Keeping intermediate files")
  else
    print (nl +:+ rule);;
    print "Cleaning up intermediate files";;
    print rule;;
    present ← exists_ dense_dir;
    if (present : bool) then
      print ("Removing dense directory: " +:+ show_path dense_dir);;
      effect (EvRmtree dense_dir) (λ σ, rmtree σ dense_dir);;
      print "Intermediate files cleaned up"
    else mret tt.

(** [main], after [parse_args].  [scene_dir] is taken as an absolute
    path. *)
Definition main (args : Args) : M unit :=
  print (nl +:+ rule);;
  print "COLMAP to Mesh Conversion using OpenMVS";;
  print rule;;
  print ("Scene directory: " +:+ show_path (scene_dir args));;
  print ("Max face area: " +:+ pretty (max_face_area args));;
  print ("Refine scales: " +:+ refine_scales args);;
  print ("Texture: " +:+ (if no_texture args then "No" else "Yes"));;
  print rule;;
  check_dependencies;;
  scene_path ← resolve (scene_dir args);
  let dense_dir := scene_path // "dense" in
  let mesh_dir := scene_path // "mesh" in
  let mvs_dir := mesh_dir // "mvs" in
  let final_mesh :=
    mvs_dir // (if negb (no_texture args)
                then "scene_dense_mesh_refine_texture.ply"
                else "scene_dense_mesh_refine.ply") in
  done ← (if skip_if_exists args then exists_ final_mesh else mret false);
  if (done : bool) then
    print (nl +:+ "Output already exists: " +:+ show_path final_mesh);;
    print "Skipping processing (use --no-skip-if-exists to force reprocessing)"
  else
    validate_input_structure (scene_dir args);;
    step_undistort_images (scene_dir args) dense_dir;;
    scene_mvs ← step_interface_colmap dense_dir mvs_dir;
    step_densify_point_cloud mvs_dir scene_mvs;;
    step_reconstruct_mesh mvs_dir;;
    refined_mesh ← step_refine_mesh mvs_dir (max_face_area args) (refine_scales args);
    final_output ←
      (if negb (no_texture args) then
         textured_mesh ← step_texture_mesh mvs_dir;
         mret textured_mesh
       else
         print (nl +:+ "Skipping texture mapping (--no_texture flag set)");;
         mret refined_mesh);
    create_progress_file mvs_dir args;;
    cleanup_intermediate_files dense_dir (keep_intermediate args);;
    print (nl +:+ rule);;
    print "CONVERSION COMPLETE!";;
    print rule;;
    print (nl +:+ "Output directory: " +:+ show_path mesh_dir);;
    print ("Final mesh: " +:+ show_path final_output);;
    (if negb (no_texture args) then
       print (nl +:+ "Textured mesh files:");;
       print ("- PLY: " +:+ show_path final_output);;
       texture_files ← glob mvs_dir "scene_dense_mesh_refine_texture*.png";
       if bool_decide (texture_files ≠ []) then
         print ("- Textures: " +:+ pretty (length (texture_files : list path))
                +:+ " files")
       else mret tt
     else
       print (nl +:+ "Untextured mesh: " +:+ show_path final_output));;
    print (nl +:+ rule).

End Program.

(** * Vocabulary of the statements *)

(** [emits P m]: every run of [m] extends the trace by events that all
    satisfy [P], whatever the outcome. *)
Definition emits (P : event → Prop) {A} (m : M A) : Prop :=
  ∀ w o w', m w = (o, w') → ∃ t, trace w' = trace w ++ t ∧ Forall P t.

(** The program an event ran, if it ran one. *)
Definition program_of (e : event) : option string :=
  match e with
  | EvRun cmd _ _ _ => Some (default "" (head cmd))
  | _ => None
  end.

(** The external programs of a trace, in the order they ran. *)
Definition runs (t : list event) : list string := omap program_of t.

(** The writes of a trace to file [p], with what was written. *)
Definition writes_to (p : path) (t : list event) : list string :=
  omap (λ e, match e with
             | EvWrite q content => if bool_decide (q = p) then Some content else None
             | _ => None
             end) t.

(** The file an OpenMVS tool is expected to leave in its working
    directory. *)
Definition tool_output (cmd : list string) : option string :=
  match head cmd with
  | Some "InterfaceCOLMAP" => Some "scene.mvs"
  | Some "DensifyPointCloud" => Some "scene_dense.mvs"
  | Some "ReconstructMesh" => Some "scene_dense_mesh.ply"
  | Some "RefineMesh" => Some "scene_dense_mesh_refine.ply"
  | Some "TextureMesh" => Some "scene_dense_mesh_refine_texture.ply"
  | _ => None
  end.

(** How an external command fared, read off its event: the program, and
    whether it exited with 0 and left its expected output behind. *)
Definition stage_result (e : event) : option (string * bool) :=
  match e with
  | EvRun cmd cwd code after =>
      Some (default "" (head cmd),
            bool_decide (code = 0)
            && match tool_output cmd with
               | Some out => path_exists after (cwd // out)
               | None => false
               end)
  | _ => None
  end.

Definition stage_log (t : list event) : list (string * bool) :=
  omap stage_result t.

Definition passed (progs : list string) : list (string * bool) :=
  (λ p, (p, true)) <$> progs.

(** A write of the progress record: a write to a file named
    [progress.json]. *)
Definition progress_write (e : event) : option (path * string) :=
  match e with
  | EvWrite q content =>
      if bool_decide (last q = Some "progress.json") then Some (q, content) else None
  | _ => None
  end.

Definition progress_writes (t : list event) : list (path * string) :=
  omap progress_write t.

(** Events that are neither a command nor a write of the record. *)
Definition quiet (e : event) : Prop :=
  stage_result e = None ∧ progress_write e = None.

(** The external stages of a run, in order. *)
Definition pipeline (args : Args) : list string :=
  ["InterfaceCOLMAP"; "DensifyPointCloud"; "ReconstructMesh"; "RefineMesh"]
  ++ (if no_texture args then [] else ["TextureMesh"]).

(** The line a stage prints before it exits on failure. *)
Definition failure_line (prog : string) : string :=
  match prog with
  | "InterfaceCOLMAP" => "Error: COLMAP to MVS conversion failed"
  | "DensifyPointCloud" => "Error: Point cloud densification failed"
  | "ReconstructMesh" => "Error: Mesh reconstruction failed"
  | "RefineMesh" => "Error: Mesh refinement failed"
  | "TextureMesh" => "Error: Mesh texturing failed"
  | _ => ""
  end.

(** How the failure of stage [prog] shows: the stage's error line and
    [sys.exit(1)], or the exception of a command that exited with a
    non-zero code. *)
Definition stage_failure {A} (prog : string) (o : outcome A) (w : world) : Prop :=
  (o = Exit 1 ∧ last (stdout w) = Some (failure_line prog))
  ∨ (∃ cmd code out,
       o = Raise (CalledProcessError cmd code out)
       ∧ head cmd = Some prog ∧ code ≠ 0).

(** A run has passed its first [k] stages and has not written the
    progress record. *)
Definition at_stage (args : Args) (k : nat) (w : world) : Prop :=
  stage_log (trace w) = passed (take k (pipeline args))
  ∧ progress_writes (trace w) = [].

(** What a stage adds to a run: nothing on the log when it could not
    start its command, a failure entry, or a success entry and the path of
    its output. *)
Definition stage_shape (prog : string) (expected : path) (w : world)
    (o : outcome path) (w' : world) : Prop :=
  ∃ t, trace w' = trace w ++ t ∧ progress_writes t = [] ∧
    ((stage_log t = [] ∧ ∀ a, o ≠ Ret a)
     ∨ (stage_log t = [(prog, false)] ∧ stage_failure prog o w')
     ∨ (stage_log t = [(prog, true)] ∧ o = Ret expected)).


(** [keeps m]: no run of [m] changes the file system. *)
Definition keeps {A} (m : M A) : Prop :=
  ∀ w o w', m w = (o, w') → files w' = files w.

(** One step of the normalizer on the file system: it makes the output
    directory, or writes one of the three tables into it. *)
Definition working_copy_step (out : path) (σ σ' : fs) : Prop :=
  makedirs σ out = inl σ'
  ∨ ∃ f c, f ∈ required_files ∧ write_file σ (out // f) c = inl σ'.





(** ASCII lower case, for comparing names without regard to case. *)
Definition lower_char (c : ascii) : ascii :=
  let n := nat_of_ascii c in
  if bool_decide (65 ≤ n ≤ 90)%nat then ascii_of_nat (n + 32) else c.

Definition lower (s : string) : string :=
  string_of_list_ascii (lower_char <$> chars s).

Definition openmvs_tools : list string :=
  ["InterfaceCOLMAP"; "DensifyPointCloud"; "ReconstructMesh";
   "RefineMesh"; "TextureMesh"].

Definition runs_openmvs (e : event) : Prop :=
  ∀ prog, program_of e = Some prog → prog ∈ openmvs_tools.

Definition said (line : string) (w : world) : world :=
  mkWorld (files w) (stdout w ++ [line]) (trace w).

(** The paths [main] derives from the resolved scene directory. *)
Definition mvs_dir_of (scene_path : path) : path :=
  scene_path // "mesh" // "mvs".

Definition final_mesh_of (scene_path : path) (no_texture : bool) : path :=
  mvs_dir_of scene_path //
    (if negb no_texture
     then "scene_dense_mesh_refine_texture.ply"
     else "scene_dense_mesh_refine.ply").

(** The models the first branch of the conversion reads as [f, cx, cy]. *)
Definition single_focal_branch : list string :=
  ["SIMPLE_PINHOLE"; "SIMPLE_RADIAL"; "SIMPLE_RADIAL_FISHEYE"].

(** A RADIAL camera as COLMAP stores it: [f, cx, cy, k1, k2]. *)
Definition radial_example : Camera :=
  mkCamera 1 "RADIAL" 640 480 [800; 320; 240; 1 # 100; -2 # 100]%Q.

Section Vocabulary.
Context `{!Host}.

Definition missing_commands : list string :=
  filter (λ c, which c = false) required_commands.

Definition which_events : list event :=
  (λ c, EvWhich c (which c)) <$> required_commands.

Definition missing_report (missing : list string) : list string :=
  ["Error: The following required commands are not found in PATH:"]
  ++ ((λ c, "  - " +:+ c) <$> missing)
  ++ [nl +:+ "Please install OpenMVS and COLMAP and ensure they are in your PATH."].

(** What [main] prints before it checks anything. *)
Definition banner_lines (args : Args) : list string :=
  [nl +:+ rule;
   "COLMAP to Mesh Conversion using OpenMVS";
   rule;
   "Scene directory: " +:+ show_path (scene_dir args);
   "Max face area: " +:+ pretty (max_face_area args);
   "Refine scales: " +:+ refine_scales args;
   "Texture: " +:+ (if no_texture args then "No" else "Yes");
   rule].

(** What the resume gate prints when it skips. *)
Definition skip_lines (final_mesh : path) : list string :=
  [nl +:+ "Output already exists: " +:+ show_path final_mesh;
   "Skipping processing (use --no-skip-if-exists to force reprocessing)"].

(** The three ways a run of [main] can go: it stops with some stages
    passed and none failed (before the first stage when it returns: that
    is the resume gate); a stage fails; or all stages pass and the
    progress record is written, once, with only quiet events after it. *)
Definition run_shape (args : Args) (σ : fs) (o : outcome unit) (w' : world) : Prop :=
  (∃ k, at_stage args k w' ∧ (o = Ret tt → k = 0%nat))
  ∨ (∃ k prog,
        pipeline args !! k = Some prog
        ∧ stage_log (trace w') = passed (take k (pipeline args)) ++ [(prog, false)]
        ∧ progress_writes (trace w') = []
        ∧ stage_failure prog o w')
  ∨ (∃ scene_path t1 t2,
        chase MAXSYMLINKS σ (scene_dir args) = Some scene_path
        ∧ trace w' =
            t1 ++ [EvWrite (mvs_dir_of scene_path // "progress.json")
                           (json_dump (progress_record args))] ++ t2
        ∧ stage_log t1 = passed (pipeline args)
        ∧ progress_writes t1 = []
        ∧ Forall quiet t2).

(** The file system after [n] invocations in a row, each a new process. *)
Fixpoint reinvoke (n : nat) (args : Args) (σ : fs) : fs :=
  match n with
  | O => σ
  | S n' => files (main args (boot (reinvoke n' args σ))).2
  end.

End Vocabulary.

(** ** Concrete hosts and scenes *)

Definition show_jvalue (v : jvalue) : string :=
  match v with
  | JBool b => if b then "true" else "false"
  | JInt n => pretty n
  | JStr s => s
  end.

(** An installation with the commands [on_path]; every tool exits with 0
    and leaves its output in the working directory, except the [broken]
    ones, which exit with 0 and leave nothing. *)
Definition demo_host (on_path : string → bool) (broken : list string) : Host := {|
  which := on_path;
  exec cmd cwd σ :=
    match tool_output cmd with
    | Some out =>
        if bool_decide (default "" (head cmd) ∈ broken) then (0, "done", σ)
        else (0, "done", <[cwd // out := File "mesh data"]> σ)
    | None => (127, "command not found", σ)
    end;
  getcwd := [];
  parse_reconstruction c i p := Some (mkReconstruction [] i p);
  dump_cameras cams := "cameras";
  json_dump j := String.concat ", " ((λ kv, kv.1 +:+ ": " +:+ show_jvalue kv.2) <$> j)
|}.

Definition everything (_ : string) : bool := true.
Definition nothing (_ : string) : bool := false.
Definition all_but (cmds : list string) (c : string) : bool :=
  bool_decide (c ∉ cmds).

(** A scene with one photo and a binary reconstruction. *)
Definition scene : path := ["data"; "scene"].

Definition scene_with_photo (photo : string) : fs :=
  list_to_map
    [(["data"], Dir);
     (scene, Dir);
     (scene // "images", Dir);
     (scene // "images" // photo, File "photo");
     (scene // "sparse", Dir);
     (scene // "sparse" // "cameras.bin", File "c");
     (scene // "sparse" // "images.bin", File "i");
     (scene // "sparse" // "points3D.bin", File "p")].

Definition fresh_scene : fs := scene_with_photo "0001.jpg".

(** The scene after a run that kept nothing but its final mesh. *)
Definition finished_scene (no_texture : bool) : fs :=
  <[final_mesh_of scene no_texture := File "mesh data"]>
    (<[mvs_dir_of scene := Dir]> (<[scene // "mesh" := Dir]> fresh_scene)).

Definition default_args : Args := mkArgs scene false 16 "1" false false.
Definition skip_args (no_texture : bool) : Args :=
  mkArgs scene no_texture 16 "1" true false.


Definition two_missing : Host := demo_host (all_but ["colmap"; "RefineMesh"]) [].
Definition no_colmap : Host := demo_host (all_but ["colmap"]) [].
Definition bare_host : Host := demo_host nothing [].
Definition good_host : Host := demo_host everything [].
Definition densify_broken : Host := demo_host everything ["DensifyPointCloud"].

(** The file systems the external commands of a trace left, in order. *)
Definition snapshots (t : list event) : list fs :=
  omap (λ e, match e with EvRun _ _ _ after => Some after | _ => None end) t.

Definition left_by_densify : fs :=
  default ∅ (last (snapshots (trace (@main densify_broken default_args
                                           (boot fresh_scene)).2))).


(** ** Further vocabulary: the checks, the cameras, the stages *)

(** The entries of the images directory the validator counts: what the
    six globs return, one after the other. *)
Definition image_files_of (σ : fs) (images_dir : path) : list path :=
  concat ((λ ext, glob_names σ images_dir ("*" +:+ ext)) <$> image_extensions).


(** A name that ends in one of the six spellings. *)
Definition has_image_extension (name : string) : Prop :=
  Exists (λ ext, chars ext `suffix_of` chars name) image_extensions.

#[global] Instance has_image_extension_dec name : Decision (has_image_extension name).
Proof. unfold has_image_extension. apply _. Defined.

(** The models the second branch of the conversion reads as
    [fx, fy, cx, cy]. *)
Definition dual_focal_branch : list string :=
  ["PINHOLE"; "RADIAL"; "RADIAL_FISHEYE"; "OPENCV"; "OPENCV_FISHEYE";
   "FULL_OPENCV"].

(** How many parameters the conversion reads from a camera of a model. *)
Definition params_read (model : string) : nat :=
  if bool_decide (model = "PINHOLE") then 0
  else if bool_decide (model ∈ single_focal_branch) then 3
  else if bool_decide (model ∈ dual_focal_branch) then 4
  else 0.

(** A camera with fewer parameters than its branch reads. *)
Definition short (c : Camera) : Prop :=
  (length (params c) < params_read (model c))%nat.

#[global] Instance short_dec c : Decision (short c).
Proof. unfold short. apply _. Defined.

(** [c'] is what the conversion leaves in place of camera [c] with id
    [k]: [c] itself when it is a PINHOLE camera; otherwise a PINHOLE
    camera of the same size whose four parameters are taken from those
    of [c] by the branch of its model, or are the fallback. *)
Definition normalized (k : Z) (c c' : Camera) : Prop :=
  model c' = "PINHOLE" ∧ width c' = width c ∧ height c' = height c
  ∧ if bool_decide (model c = "PINHOLE") then c' = c
    else camera_id c' = k
         ∧ ∃ fx fy cx cy,
             params c' = [fx; fy; cx; cy]
             ∧ if bool_decide (model c ∈ single_focal_branch) then
                 params c !! 0%nat = Some fx ∧ fy = fx
                 ∧ params c !! 1%nat = Some cx ∧ params c !! 2%nat = Some cy
               else if bool_decide (model c ∈ dual_focal_branch) then
                 params c !! 0%nat = Some fx ∧ params c !! 1%nat = Some fy
                 ∧ params c !! 2%nat = Some cx ∧ params c !! 3%nat = Some cy
               else
                 fx = inject_Z (Z.max (width c) (height c)) ∧ fy = fx
                 ∧ cx = (inject_Z (width c) / 2)%Q
                 ∧ cy = (inject_Z (height c) / 2)%Q.

(** What a stage function guarantees about a run from [w] that ends in
    [w'] with outcome [o], for the command line [cmd] it runs in [mvs],
    the output [expected] it checks and the error [line] it prints: it
    returns only the path of an output that exists, after the command
    exited with 0; it exits only with status 1 and its error line, after
    the command exited with 0 and left no output; a command that exits
    with another code raises, and nothing is printed after the header of
    the command; any other exception means that the command did not
    start.  In the first three cases the command is the only one run. *)
Definition stage_contract (cmd : list string) (mvs expected : path)
    (line : string) (w : world) (o : outcome path) (w' : world) : Prop :=
  match o with
  | Ret p =>
      p = expected ∧ path_exists (files w') expected = true
      ∧ ∃ t, runs t = []
             ∧ trace w' = trace w ++ t ++ [EvRun cmd mvs 0 (files w');
                                           EvStat expected]
  | Exit code =>
      code = 1 ∧ path_exists (files w') expected = false
      ∧ last (stdout w') = Some line
      ∧ ∃ t, runs t = []
             ∧ trace w' = trace w ++ t ++ [EvRun cmd mvs 0 (files w');
                                           EvStat expected]
  | Raise (CalledProcessError cmd' code out) =>
      cmd' = cmd ∧ code ≠ 0
      ∧ last (stdout w') = Some ("Working directory: " +:+ show_path mvs)
      ∧ ∃ t, runs t = []
             ∧ trace w' = trace w ++ t ++ [EvRun cmd mvs code (files w')]
  | Raise _ => runs (trace w') = runs (trace w)
  end.


(** The operations of a run stay in the working directories below the
    resolved scene directory [sp]: directories are made at dense/,
    dense/sparse and mesh/mvs; links are made and removed at
    dense/images; trees are removed at dense/images and dense/; files
    are written at the three tables of dense/sparse and at
    mesh/mvs/progress.json; commands run in mesh/mvs; and no tree is ever
    copied. *)
Definition confined (sp : path) (e : event) : Prop :=
  match e with
  | EvMakedirs p =>
      p ∈ [sp // "dense"; sp // "dense" // "sparse"; sp // "mesh" // "mvs"]
  | EvUnlink p => p = sp // "dense" // "images"
  | EvRmtree p => p ∈ [sp // "dense" // "images"; sp // "dense"]
  | EvSymlink p _ => p = sp // "dense" // "images"
  | EvWrite p _ =>
      p ∈ [sp // "dense" // "sparse" // cameras_bin;
           sp // "dense" // "sparse" // images_bin;
           sp // "dense" // "sparse" // points3D_bin;
           sp // "mesh" // "mvs" // "progress.json"]
  | EvCopytree _ _ => False
  | EvRun _ cwd _ _ => cwd = sp // "mesh" // "mvs"
  | _ => True
  end.

(** ** More concrete hosts and scenes *)

Definition show_camera (kc : Z * Camera) : string :=
  pretty kc.1 +:+ ":" +:+ model kc.2.

(** A host like [good_host] whose reconstructions hold the cameras
    [cams]. *)
Definition with_cameras (cams : list (Z * Camera)) : Host := {|
  which := everything;
  exec := @exec good_host;
  getcwd := [];
  parse_reconstruction c i p := Some (mkReconstruction cams i p);
  dump_cameras cams := String.concat ";" (show_camera <$> cams);
  json_dump := @json_dump good_host
|}.

(** Four cameras: one of a SIMPLE model, one of the OPENCV family, one
    that is PINHOLE already, and one of a model the code does not know. *)
Definition sample_cameras : list (Z * Camera) :=
  [(1, mkCamera 1 "SIMPLE_RADIAL" 640 480 [500; 320; 240; 1 # 10]%Q);
   (2, mkCamera 2 "OPENCV" 800 600 [700; 710; 400; 300; 1 # 100; 0; 0; 0]%Q);
   (3, mkCamera 3 "PINHOLE" 640 480 [500; 500; 320; 240]%Q);
   (4, mkCamera 4 "THIN_PRISM_FISHEYE" 1000 500 []%Q)].


(** A SIMPLE_RADIAL camera that lacks its principal point. *)
Definition short_cameras : list (Z * Camera) :=
  [(1, mkCamera 1 "SIMPLE_RADIAL" 640 480 [500; 320]%Q)].

(** The scene without its pose table. *)
Definition scene_without_poses : fs :=
  delete (scene // "sparse" // "images.bin") fresh_scene.


Definition untextured_args : Args := mkArgs scene true 16 "1" false false.

(** ** Where the file-system model speaks for the system *)

(** The model looks a path up as it is written.  The system would first
    resolve the symbolic links above the last component; so a statement
    that says a path is missing, or that a file stays as it was, is made
    for paths without a symbolic link at or above them. *)
Definition prefixes (p : path) : list path :=
  (λ n, take n p) <$> seq 0 (S (length p)).

Definition canonical (σ : fs) (p : path) : Prop :=
  Forall (λ k, is_symlink σ k = false) (prefixes p).

#[global] Instance canonical_dec σ p : Decision (canonical σ p).
Proof. unfold canonical. apply _. Defined.

(** The limits of the system on the bytes of a name and of a path; a
    call on a longer one fails with ENAMETOOLONG, which [Path.exists]
    does not swallow. *)
Definition NAME_MAX : nat := 255.
Definition PATH_MAX : nat := 4096.

(** A directory whose names are within the limits, with room for the
    names the program appends to it. *)
Definition nameable (p : path) : Prop :=
  Forall (λ c, (String.length c ≤ NAME_MAX)%nat) p
  ∧ (String.length (show_path p) + 64 ≤ PATH_MAX)%nat.

#[global] Instance nameable_dec p : Decision (nameable p).
Proof. unfold nameable. apply _. Defined.


(** * Reasoning about runs *)

Section Runs.
Context `{!Host}.

Lemma run_bind {A B} (m : M A) (k : A → M B) w :
  (m ≫= k) w = match m w with
               | (Ret a, w') => k a w'
               | (Exit c, w') => (Exit c, w')
               | (Raise e, w') => (Raise e, w')
               end.
Proof. reflexivity. Qed.

Lemma print_lines {A} (l : list A) (f : A → string) w :
  for_ l (λ a, print (f a)) w =
  (Ret tt, mkWorld (files w) (stdout w ++ (f <$> l)) (trace w)).
Proof.
  revert w. induction l as [|a l IH]; intros w.
  - simpl. rewrite app_nil_r. by destruct w.
  - unfold for_ in *. cbn [foldM]. unfold mbind, M_bind, print at 1.
    rewrite IH. cbn. by rewrite <-app_assoc.
Qed.

(** ** What a computation adds to the trace *)

Variable P : event → Prop.

Lemma emits_ret {A} (a : A) : emits P (mret a).
Proof. intros w o w' [= <- <-]. exists []. by rewrite app_nil_r. Qed.

Lemma emits_exit {A} c : emits P (@sys_exit A c).
Proof. intros w o w' [= <- <-]. exists []. by rewrite app_nil_r. Qed.

Lemma emits_raise {A} e : emits P (@raise A e).
Proof. intros w o w' [= <- <-]. exists []. by rewrite app_nil_r. Qed.

Lemma emits_print s : emits P (print s).
Proof. intros w o w' [= <- <-]. exists []. by rewrite app_nil_r. Qed.

Lemma emits_get_files : emits P get_files.
Proof. intros w o w' [= <- <-]. exists []. by rewrite app_nil_r. Qed.

Lemma emits_emit e : P e → emits P (emit e).
Proof. intros He w o w' [= <- <-]. exists [e]. split; [done | by constructor]. Qed.

Lemma emits_effect e f : P e → emits P (effect e f).
Proof.
  intros He w o w'. unfold effect. destruct (f (files w)); intros [= <- <-].
  - exists [e]. split; [done | by constructor].
  - exists []. by rewrite app_nil_r.
Qed.

Lemma emits_bind {A B} (m : M A) (k : A → M B) :
  emits P m → (∀ a, emits P (k a)) → emits P (m ≫= k).
Proof.
  intros Hm Hk w o w'. rewrite run_bind.
  destruct (m w) as [[a|c|e] w1] eqn:E; intros Hrun.
  - destruct (Hm _ _ _ E) as (t1 & E1 & F1).
    destruct (Hk a _ _ _ Hrun) as (t2 & E2 & F2).
    exists (t1 ++ t2). rewrite E2, E1, <-app_assoc. split; [done|].
    by apply Forall_app.
  - injection Hrun as <- <-. eauto.
  - injection Hrun as <- <-. eauto.
Qed.

Lemma emits_foldM {A B} (f : B → A → M B) l :
  (∀ b a, emits P (f b a)) → ∀ b, emits P (foldM f b l).
Proof.
  intros Hf. induction l as [|a l IH]; intros b; simpl.
  - apply emits_ret.
  - apply emits_bind; auto.
Qed.

Lemma emits_for {A} (l : list A) body :
  (∀ a, emits P (body a)) → emits P (for_ l body).
Proof. intros Hb. apply emits_foldM. auto. Qed.

Lemma emits_subprocess_run cmd cwd :
  (∀ code σ', P (EvRun cmd (default getcwd cwd) code σ')) →
  emits P (subprocess_run cmd cwd).
Proof.
  intros HP w o w'. unfold subprocess_run.
  destruct (negb (which _)); [intros [= <- <-]; exists []; by rewrite app_nil_r|].
  destruct (negb (is_dir _ _)); [intros [= <- <-]; exists []; by rewrite app_nil_r|].
  destruct (exec _ _ _) as [[code out] σ'].
  case_bool_decide; intros [= <- <-]; eexists [_]; (split; [done|]);
    constructor; auto.
Qed.

End Runs.

(** Take a computation apart along its binds, branches and loops, down to
    the library calls; what is left are conditions on single events. *)
Ltac emits_step :=
  lazymatch goal with
  | |- emits _ (mbind _ _) => apply emits_bind; [|intros ?]
  | |- emits _ (mret _) => apply emits_ret
  | |- emits _ (sys_exit _) => apply emits_exit
  | |- emits _ (raise _) => apply emits_raise
  | |- emits _ (print _) => apply emits_print
  | |- emits _ get_files => apply emits_get_files
  | |- emits _ (emit _) => apply emits_emit
  | |- emits _ (effect _ _) => apply emits_effect
  | |- emits _ (foldM _ _ _) => apply emits_foldM; intros ? ?
  | |- emits _ (for_ _ _) => apply emits_for; intros ?
  | |- emits _ (subprocess_run _ _) => apply emits_subprocess_run; intros ? ?
  | |- emits _ (if ?b then _ else _) => destruct b
  | |- emits _ (match ?x with _ => _ end) => destruct x
  end.

Ltac head_of t :=
  lazymatch t with
  | ?f _ => head_of f
  | _ => t
  end.

Ltac emits_unfold :=
  lazymatch goal with
  | |- emits _ ?m => let h := head_of m in progress unfold h
  end.

Ltac emits_all := repeat first [ emits_step | emits_unfold ].

(** Evaluate the monad's plumbing in a run. *)
Ltac run_cbv :=
  cbv beta iota delta [mbind M_bind mret M_ret print emit get_files sys_exit
                       raise fst snd negb orb andb default];
  cbn [files stdout trace].

(** Name what a run added to the trace. *)
Ltac ext_trace :=
  eexists; split;
  [ first [ symmetry; apply app_nil_r | rewrite <-?app_assoc; reflexivity ] | ].

(** * Camera-model normalization *)

Section Cameras.
Context `{!Host}.

(** The three models of the first branch are read as [f, cx, cy]. *)
Lemma convert_camera_simple cam_id camera f cx cy rest w :
  model camera ∈ single_focal_branch →
  params camera = f :: cx :: cy :: rest →
  convert_camera cam_id camera w =
    (Ret (Some (mkCamera cam_id "PINHOLE" (width camera) (height camera)
                         [f; f; cx; cy])),
     said ("  Converting camera " +:+ pretty cam_id +:+ " from " +:+ model camera
           +:+ " to PINHOLE") w).
Proof.
  intros Hm Hp. unfold convert_camera, _camera_model_name.
  rewrite Hp.
  repeat (apply elem_of_cons in Hm as [->|Hm]; [reflexivity|]).
  by apply elem_of_nil in Hm.
Qed.

(** RADIAL and RADIAL_FISHEYE sit in the second branch instead, which
    reads four parameters as [fx, fy, cx, cy]. *)
Lemma convert_camera_radial cam_id camera p0 p1 p2 p3 rest w :
  model camera ∈ ["RADIAL"; "RADIAL_FISHEYE"] →
  params camera = p0 :: p1 :: p2 :: p3 :: rest →
  convert_camera cam_id camera w =
    (Ret (Some (mkCamera cam_id "PINHOLE" (width camera) (height camera)
                         [p0; p1; p2; p3])),
     said ("  Converting camera " +:+ pretty cam_id +:+ " from " +:+ model camera
           +:+ " to PINHOLE") w).
Proof.
  intros Hm Hp. unfold convert_camera, _camera_model_name.
  rewrite Hp.
  repeat (apply elem_of_cons in Hm as [->|Hm]; [reflexivity|]).
  by apply elem_of_nil in Hm.
Qed.

(** C1: on a camera of model RADIAL, a member of the single-focal-length
    family with parameters [f, cx, cy, k1, k2], the conversion does not
    give [fx = fy = params[0]], [cx = params[1]], [cy = params[2]]: it
    reads the first four parameters as [fx, fy, cx, cy], so the result
    has [fy = 320], the old [cx]; [cx = 240], the old [cy]; and [cy] the
    first distortion term.  Width, height and the PINHOLE tag are as
    claimed. *)
Theorem radial_read_as_dual_focal (σ : fs) :
  convert_camera 1 radial_example (boot σ) =
    (Ret (Some (mkCamera 1 "PINHOLE" 640 480 [800; 320; 240; 1 # 100]%Q)),
     said "  Converting camera 1 from RADIAL to PINHOLE" (boot σ))
  ∧ params radial_example = [800; 320; 240; 1 # 100; -2 # 100]%Q
  ∧ [800; 320; 240; 1 # 100]%Q ≠ [800; 800; 320; 240]%Q.
Proof. split; [reflexivity | split; [reflexivity | discriminate]]. Qed.

End Cameras.

(** * The dependency check and the resume gate *)

Section Deps.
Context `{!Host}.

Lemma shutil_which_run cmd w :
  shutil_which cmd w =
  (Ret (which cmd),
   mkWorld (files w) (stdout w) (trace w ++ [EvWhich cmd (which cmd)])).
Proof. reflexivity. Qed.

Lemma which_scan cmds : ∀ acc w,
  foldM (λ (missing : list string) (cmd : string),
           found ← shutil_which cmd;
           if (found : bool) then mret missing else mret (missing ++ [cmd]))
        acc cmds w =
  (Ret (acc ++ filter (λ c, which c = false) cmds),
   mkWorld (files w) (stdout w) (trace w ++ ((λ c, EvWhich c (which c)) <$> cmds))).
Proof.
  induction cmds as [|c cmds IH]; intros acc w.
  - simpl. rewrite !app_nil_r. by destruct w.
  - cbn [foldM]. rewrite !run_bind, shutil_which_run. cbv beta iota.
    rewrite filter_cons.
    destruct (which c) eqn:E; cbv beta iota delta [mret M_ret]; rewrite IH;
      cbn [files stdout trace fmap list_fmap].
    + rewrite decide_False by done. by rewrite E, <-app_assoc.
    + rewrite decide_True by done. by rewrite E, <-!app_assoc.
Qed.

Lemma check_dependencies_run w :
  check_dependencies w =
    if decide (missing_commands = [])
    then (Ret tt, mkWorld (files w) (stdout w) (trace w ++ which_events))
    else (Exit 1, mkWorld (files w) (stdout w ++ missing_report missing_commands)
                          (trace w ++ which_events)).
Proof.
  unfold check_dependencies. unfold mbind at 1. unfold M_bind at 1.
  rewrite which_scan. fold missing_commands which_events. cbn [app].
  destruct (decide (missing_commands = [])) as [E|E].
  - rewrite E. reflexivity.
  - rewrite bool_decide_true by done.
    unfold mbind, M_bind. cbn [print files stdout trace].
    rewrite print_lines. cbn. unfold missing_report. by rewrite <-!app_assoc.
Qed.

Lemma missing_commands_spec c :
  c ∈ missing_commands ↔ c ∈ required_commands ∧ which c = false.
Proof. unfold missing_commands. rewrite list_elem_of_filter. tauto. Qed.

Lemma required_commands_NoDup : NoDup required_commands.
Proof. compute_done. Qed.

Lemma missing_commands_NoDup : NoDup missing_commands.
Proof. apply NoDup_filter, required_commands_NoDup. Qed.

Lemma missing_when_absent c :
  c ∈ required_commands → which c = false → missing_commands ≠ [].
Proof.
  intros Hc Hw E. assert (c ∈ missing_commands) as Hin
    by by apply missing_commands_spec.
  rewrite E in Hin. by apply elem_of_nil in Hin.
Qed.

Lemma which_events_no_run : runs which_events = [].
Proof. reflexivity. Qed.

(** [main] up to the dependency check. *)
Lemma main_missing_run args σ :
  missing_commands ≠ [] →
  main args (boot σ) =
    (Exit 1, mkWorld σ (banner_lines args ++ missing_report missing_commands)
                     which_events).
Proof.
  intros Hm. unfold main, mbind, M_bind, print at 1 2 3 4 5 6 7 8.
  cbn [boot files stdout trace app].
  rewrite check_dependencies_run. cbn [files stdout trace app].
  by rewrite decide_False.
Qed.

(** A run that returns has passed the dependency check. *)
Lemma main_ret_all_resolve args σ :
  (main args (boot σ)).1 = Ret tt → missing_commands = [].
Proof.
  intros Hr. destruct (decide (missing_commands = [])) as [|Hm]; [done|].
  by rewrite (main_missing_run _ _ Hm) in Hr.
Qed.

(** [main] through the resume gate when it skips. *)
Lemma main_skip_run args σ scene_path :
  missing_commands = [] →
  skip_if_exists args = true →
  chase MAXSYMLINKS σ (scene_dir args) = Some scene_path →
  path_exists σ (final_mesh_of scene_path (no_texture args)) = true →
  main args (boot σ) =
    (Ret tt,
     mkWorld σ
       (banner_lines args
        ++ skip_lines (final_mesh_of scene_path (no_texture args)))
       (which_events
        ++ [EvResolve (scene_dir args);
            EvStat (final_mesh_of scene_path (no_texture args))])).
Proof.
  intros Hm Hskip Hchase Hfinal.
  unfold main, mbind, M_bind, print at 1 2 3 4 5 6 7 8.
  cbn [boot files stdout trace app].
  rewrite check_dependencies_run. cbn [files stdout trace app].
  rewrite decide_True by done.
  unfold resolve, mbind, M_bind, emit, get_files. cbn [files stdout trace].
  rewrite Hchase, Hskip. cbv beta iota delta [mret M_ret].
  unfold exists_, mbind, M_bind, emit, get_files. cbn [files stdout trace].
  fold (mvs_dir_of scene_path). fold (final_mesh_of scene_path (no_texture args)).
  cbv beta iota delta [mret M_ret]. rewrite Hfinal.
  unfold print. cbn [files stdout trace].
  unfold skip_lines. by rewrite <-!app_assoc.
Qed.

(** C4: whatever non-empty set [S] of required tools fails to resolve,
    the dependency check prints one report that lists the members of [S],
    all of them and nothing else, and the process exits with status 1
    having run no external command and left the files as they were. *)
Theorem missing_tools_reported_together args σ (S : list string) :
  NoDup S →
  (∀ c, c ∈ S ↔ c ∈ required_commands ∧ which c = false) →
  S ≠ [] →
  ∃ reported,
    reported ≡ₚ S
    ∧ main args (boot σ) =
        (Exit 1, mkWorld σ (banner_lines args ++ missing_report reported)
                         which_events)
    ∧ runs which_events = [].
Proof.
  intros HS Hspec Hne. exists missing_commands.
  assert (missing_commands ≡ₚ S) as Hperm.
  { apply NoDup_Permutation; [apply missing_commands_NoDup | done |].
    intros c. by rewrite missing_commands_spec, Hspec. }
  split; [done|]. split; [|reflexivity].
  apply main_missing_run. intros E. rewrite E in Hperm.
  by apply Permutation_nil_l in Hperm.
Qed.

(** C2, as the code has it: the dependency check comes first, the resume
    gate second, the validation of the scene third.  With [skip_if_exists]
    set and the final artifact present, a run on a host where all six
    tools resolve returns (status 0) with the files untouched after the
    six look-ups, the resolution of the scene directory and the one test
    of the artifact: no validation of the scene, no stage.  On a host
    where a tool is missing the same run exits with status 1 in the
    dependency check. *)
Theorem resume_gate_after_dependency_check args σ scene_path :
  skip_if_exists args = true →
  chase MAXSYMLINKS σ (scene_dir args) = Some scene_path →
  path_exists σ (final_mesh_of scene_path (no_texture args)) = true →
  main args (boot σ) =
    if decide (missing_commands = [])
    then (Ret tt,
          mkWorld σ
            (banner_lines args
             ++ skip_lines (final_mesh_of scene_path (no_texture args)))
            (which_events
             ++ [EvResolve (scene_dir args);
                 EvStat (final_mesh_of scene_path (no_texture args))]))
    else (Exit 1,
          mkWorld σ (banner_lines args ++ missing_report missing_commands)
                  which_events).
Proof.
  intros Hskip Hchase Hfinal. destruct (decide (missing_commands = [])).
  - by apply main_skip_run.
  - by apply main_missing_run.
Qed.

(** C6: on a host where a run has succeeded before, an invocation with
    [skip_if_exists] on a scene whose final artifact is on disk returns
    (status 0), runs no external command and leaves the files as they
    are; and so does every further invocation. *)
Theorem rerun_is_noop args0 σ0 args σ scene_path :
  (main args0 (boot σ0)).1 = Ret tt →
  skip_if_exists args = true →
  chase MAXSYMLINKS σ (scene_dir args) = Some scene_path →
  path_exists σ (final_mesh_of scene_path (no_texture args)) = true →
  ∀ n, (main args (boot (reinvoke n args σ))).1 = Ret tt
       ∧ runs (trace (main args (boot (reinvoke n args σ))).2) = []
       ∧ files (main args (boot (reinvoke n args σ))).2 = σ.
Proof.
  intros Hprior Hskip Hchase Hfinal.
  pose proof (main_ret_all_resolve _ _ Hprior) as Hm.
  pose proof (main_skip_run args σ scene_path Hm Hskip Hchase Hfinal) as Hrun.
  assert (∀ n, reinvoke n args σ = σ) as Hfix.
  { induction n as [|n IH]; [done|]. cbn [reinvoke]. by rewrite IH, Hrun. }
  intros n. rewrite Hfix, Hrun. cbn [fst snd files trace].
  split; [done|]. split; [|done].
  unfold runs. rewrite omap_app. fold (runs which_events).
  by rewrite which_events_no_run.
Qed.

End Deps.

(** * Which programs the pipeline runs *)

Section Tools.
Context `{!Host}.

Lemma emits_boot {A} (P : event → Prop) (m : M A) σ :
  emits P m → Forall P (trace (m (boot σ)).2).
Proof.
  intros Hm. destruct (m (boot σ)) as [o w'] eqn:E.
  destruct (Hm _ _ _ E) as (t & Et & Ht). cbn. by rewrite Et.
Qed.

Lemma elem_of_runs prog t :
  prog ∈ runs t ↔ ∃ e, e ∈ t ∧ program_of e = Some prog.
Proof. unfold runs. by rewrite list_elem_of_omap. Qed.

Lemma main_runs_openmvs args : emits runs_openmvs (main args).
Proof.
  unfold main. emits_all;
    try (intros prog [= <-]; compute_done);
    try (intros prog [=]).
Qed.

(** C10: a host on which [colmap] does not resolve makes every run exit
    with status 1 in the dependency check, whatever else is installed,
    with no program run; yet on any host the only programs a run ever
    executes are the five OpenMVS tools, and [colmap] is not one of
    them. *)
Theorem colmap_required_never_run args σ :
  (which "colmap" = false →
     (main args (boot σ)).1 = Exit 1
     ∧ "  - colmap" ∈ stdout (main args (boot σ)).2
     ∧ runs (trace (main args (boot σ)).2) = [])
  ∧ (∀ prog, prog ∈ runs (trace (main args (boot σ)).2) →
             prog ∈ openmvs_tools)
  ∧ "colmap" ∈ required_commands
  ∧ "colmap" ∉ openmvs_tools.
Proof.
  split; [|split; [|split]].
  - intros Hc.
    assert ("colmap" ∈ missing_commands) as Hin.
    { apply missing_commands_spec. split; [compute_done | done]. }
    rewrite main_missing_run by (intros E; rewrite E in Hin; by apply elem_of_nil in Hin).
    cbn [fst snd stdout trace]. split; [done|]. split; [|reflexivity].
    apply elem_of_app. right. unfold missing_report.
    apply elem_of_app. right. apply elem_of_app. left.
    by apply (list_elem_of_fmap_2 (λ c, "  - " +:+ c) _ "colmap").
  - intros prog (e & He & Hp)%elem_of_runs.
    pose proof (emits_boot _ _ σ (main_runs_openmvs args)) as Hall.
    rewrite Forall_forall in Hall. by apply (Hall e He).
  - compute_done.
  - compute_done.
Qed.

End Tools.

(** * The stages *)

Section Stages.
Context `{!Host}.

Lemma stage_log_app t1 t2 : stage_log (t1 ++ t2) = stage_log t1 ++ stage_log t2.
Proof. apply omap_app. Qed.

Lemma progress_writes_app t1 t2 :
  progress_writes (t1 ++ t2) = progress_writes t1 ++ progress_writes t2.
Proof. apply omap_app. Qed.

Lemma quiet_log t : Forall quiet t → stage_log t = [] ∧ progress_writes t = [].
Proof.
  induction 1 as [|e t [He1 He2] _ [IH1 IH2]]; [done|].
  unfold stage_log, progress_writes in *. cbn. by rewrite He1, He2.
Qed.

Lemma runs_stage_log t : runs t = (stage_log t).*1.
Proof.
  induction t as [|e t IH]; [done|].
  unfold runs, stage_log in *. destruct e; cbn; try done. by rewrite IH.
Qed.

(** One script for the five stages: run the prints, split on whether the
    command could start, on its exit code and on its output. *)
Ltac stage_cases :=
  unfold run_command, subprocess_run, exists_, os_makedirs, effect;
  rewrite bool_decide_true by done; run_cbv;
  repeat match goal with
         | |- context [makedirs ?σ ?p] => destruct (makedirs σ p); run_cbv
         end;
  try (destruct (which _); run_cbv);
  try (destruct (is_dir _ _); run_cbv);
  try (destruct (exec _ _ _) as [[?code ?out] ?σ']; case_bool_decide; run_cbv);
  try (destruct (path_exists _ _) eqn:?; run_cbv);
  intros [= <- <-]; ext_trace; (split; [done|]);
  first
    [ by left
    | right; right; split; [|done]; cbn;
      rewrite bool_decide_true by done; by rewrite_all_exists
    | right; left; split;
      [ cbn; first [ by rewrite bool_decide_false
                   | rewrite bool_decide_true by done; by rewrite_all_exists ]
      | first [ left; split; [done|]; cbn; by rewrite last_snoc
              | right; by repeat eexists ] ] ]
with rewrite_all_exists :=
  repeat match goal with
         | E : path_exists _ _ = _ |- _ => rewrite E; clear E
         end.

Lemma step_interface_colmap_shape dense mvs w o w' :
  step_interface_colmap dense mvs w = (o, w') →
  stage_shape "InterfaceCOLMAP" (mvs // "scene.mvs") w o w'.
Proof. unfold step_interface_colmap. stage_cases. Qed.

Lemma step_densify_point_cloud_shape mvs scene_mvs w o w' :
  step_densify_point_cloud mvs scene_mvs w = (o, w') →
  stage_shape "DensifyPointCloud" (mvs // "scene_dense.mvs") w o w'.
Proof. unfold step_densify_point_cloud. stage_cases. Qed.

Lemma step_reconstruct_mesh_shape mvs w o w' :
  step_reconstruct_mesh mvs w = (o, w') →
  stage_shape "ReconstructMesh" (mvs // "scene_dense_mesh.ply") w o w'.
Proof. unfold step_reconstruct_mesh. stage_cases. Qed.

Lemma step_refine_mesh_shape mvs area scales w o w' :
  step_refine_mesh mvs area scales w = (o, w') →
  stage_shape "RefineMesh" (mvs // "scene_dense_mesh_refine.ply") w o w'.
Proof. unfold step_refine_mesh. stage_cases. Qed.

Lemma step_texture_mesh_shape mvs w o w' :
  step_texture_mesh mvs w = (o, w') →
  stage_shape "TextureMesh" (mvs // "scene_dense_mesh_refine_texture.ply") w o w'.
Proof. unfold step_texture_mesh. stage_cases. Qed.

End Stages.

(** * The shape of a run *)

Section Shape.
Context `{!Host}.

Ltac quiet_events :=
  try (split; [reflexivity|]; cbn; unfold joinpath; rewrite ?last_snoc; reflexivity).

Lemma validate_input_structure_quiet d : emits quiet (validate_input_structure d).
Proof. emits_all; quiet_events. Qed.

Lemma step_undistort_images_quiet d dense : emits quiet (step_undistort_images d dense).
Proof. emits_all; quiet_events. Qed.

Lemma cleanup_intermediate_files_quiet dense keep :
  emits quiet (cleanup_intermediate_files dense keep).
Proof. emits_all; quiet_events. Qed.

Lemma gate_quiet (skip : bool) p :
  emits quiet (if skip then exists_ p else mret false).
Proof. emits_all; quiet_events. Qed.

Lemma glob_quiet d pat : emits quiet (glob d pat).
Proof. emits_all; quiet_events. Qed.

Lemma quiet_keeps {A} (m : M A) args k w o w1 :
  emits quiet m → m w = (o, w1) → at_stage args k w → at_stage args k w1.
Proof.
  intros Hm E [Hl Hp]. destruct (Hm _ _ _ E) as (t & Et & [Ht1 Ht2]%quiet_log).
  unfold at_stage. rewrite Et, stage_log_app, progress_writes_app, Hl, Hp, Ht1, Ht2.
  by rewrite !app_nil_r.
Qed.

Lemma stage_failure_exit {A B} prog c w :
  @stage_failure A prog (Exit c) w → @stage_failure B prog (Exit c) w.
Proof.
  intros [[[= ->] Hl]|(cmd & code & out & [=] & _)]. left. done.
Qed.

Lemma stage_failure_raise {A B} prog e w :
  @stage_failure A prog (Raise e) w → @stage_failure B prog (Raise e) w.
Proof.
  intros [[[=] _]|(cmd & code & out & [= ->] & Hh & Hc)].
  right. by exists cmd, code, out.
Qed.

Lemma passed_snoc progs k prog :
  progs !! k = Some prog →
  passed (take k progs) ++ [(prog, true)] = passed (take (S k) progs).
Proof.
  intros Hk. unfold passed. rewrite (take_S_r _ _ _ Hk), fmap_app. done.
Qed.

(** A stage, taken at the point where [k] stages have passed: it passes
    too, or the run is over in one of the first two shapes. *)
Lemma stage_step args σ k prog expected w (o : outcome path) w1 :
  stage_shape prog expected w o w1 →
  at_stage args k w →
  pipeline args !! k = Some prog →
  (o = Ret expected ∧ at_stage args (S k) w1)
  ∨ ((∃ c, o = Exit c ∧ run_shape args σ (Exit c) w1)
     ∨ (∃ e, o = Raise e ∧ run_shape args σ (Raise e) w1)).
Proof.
  intros (t & Et & Hw & Hcases) [Hl Hp] Hk.
  assert (progress_writes (trace w1) = []) as Hp1
    by by rewrite Et, progress_writes_app, Hp, Hw.
  destruct Hcases as [[Ht Ho]|[[Ht Ho]|[Ht ->]]].
  - right. assert (at_stage args k w1) as Hat.
    { split; [|done]. by rewrite Et, stage_log_app, Hl, Ht, app_nil_r. }
    destruct o as [a|c|e]; [by destruct (Ho a)| |].
    + left. exists c. split; [done|]. left. exists k. split; [done|]. done.
    + right. exists e. split; [done|]. left. exists k. split; [done|]. done.
  - right. assert (stage_log (trace w1)
                   = passed (take k (pipeline args)) ++ [(prog, false)]) as Hl1
      by by rewrite Et, stage_log_app, Hl, Ht.
    destruct o as [a|c|e].
    + destruct Ho as [[[=] _]|(? & ? & ? & [=] & _)].
    + left. exists c. split; [done|]. right; left. exists k, prog.
      eauto using @stage_failure_exit.
    + right. exists e. split; [done|]. right; left. exists k, prog.
      eauto using @stage_failure_raise.
  - left. split; [done|]. split; [|done].
    by rewrite Et, stage_log_app, Hl, Ht, passed_snoc.
Qed.

Lemma at_stage_said args k w lines :
  at_stage args k w → at_stage args k (mkWorld (files w) lines (trace w)).
Proof. done. Qed.

Ltac stop_at k :=
  intros [= <- <-]; left; exists k; (split; [eassumption | intros [=]]).

Ltac run_quiet lem Hat E a w1 Hat1 :=
  lazymatch goal with
  | |- context [let (_, _) := ?m ?w in _] =>
      destruct (m w) as [[a|?|?] w1] eqn:E;
      pose proof (quiet_keeps _ _ _ _ _ _ lem E Hat) as Hat1
  end.

Ltac run_stage lem σ Hat w1 Hat1 Hk :=
  lazymatch goal with
  | |- context [let (_, _) := ?m ?w in _] =>
      let E := fresh "E" in
      let o := fresh "o" in
      let Hs := fresh "Hs" in
      destruct (m w) as [o w1] eqn:E; apply lem in E;
      destruct (stage_step _ σ _ _ _ _ _ _ E Hat Hk)
        as [[-> Hat1]|[(? & -> & Hs)|(? & -> & Hs)]];
      [ | intros [= <- <-]; exact Hs | intros [= <- <-]; exact Hs ]
  end.

Lemma at_stage_full args k w :
  at_stage args k w → k = length (pipeline args) →
  stage_log (trace w) = passed (pipeline args) ∧ progress_writes (trace w) = [].
Proof. intros [Hl Hp] ->. by rewrite firstn_all in Hl. Qed.

(** The end of [main], from the write of the progress record on. *)
Ltac finish_run Hat Hsp Hnt :=
  let Hfull := fresh "Hfull" in
  assert (_ ∧ _) as Hfull
    by (apply (at_stage_full _ _ _ Hat); unfold pipeline; by rewrite Hnt);
  destruct Hfull as [? ?];
  unfold create_progress_file, effect; run_cbv;
  destruct (write_file _ _ _) as [?σp|?x] eqn:?Ew; cbv beta iota;
  [ | intros [= <- <-]; left; eexists; split; [exact Hat | intros [=]] ];
  lazymatch goal with
  | |- context [let (_, _) := cleanup_intermediate_files ?d ?k ?w in _] =>
      let Ec := fresh "Ec" in
      let t2 := fresh "t2" in
      let Et2 := fresh "Et2" in
      let Hq := fresh "Hq" in
      destruct (cleanup_intermediate_files d k w) as [[[]|?c|?e] ?w9] eqn:Ec;
      destruct (cleanup_intermediate_files_quiet _ _ _ _ _ Ec) as (t2 & Et2 & Hq);
      cbn [trace] in Et2;
      unfold glob; run_cbv; try case_bool_decide;
      intros [= <- <-]; right; right;
      cbn [trace]; rewrite Et2, <-?app_assoc;
      eexists _, _, _; (split; [exact Hsp|]);
      (split; [reflexivity|]);
      (split; [assumption|]); (split; [assumption|]);
      rewrite ?Forall_app; repeat split; try assumption; by repeat constructor
  end.

Lemma main_shape args σ o w' : main args (boot σ) = (o, w') → run_shape args σ o w'.
Proof.
  unfold main. run_cbv. cbn [boot files stdout trace app].
  rewrite check_dependencies_run. cbn [files stdout trace app].
  destruct (decide (missing_commands = [])) as [Hm|Hm].
  2:{ intros [= <- <-]. left. exists 0%nat. by split. }
  unfold resolve at 1. run_cbv.
  destruct (chase MAXSYMLINKS σ (scene_dir args)) as [sp|] eqn:Hsp.
  2:{ intros [= <- <-]. left. exists 0%nat. by split. }
  match goal with
  | |- context [(if skip_if_exists args then _ else _) ?w] =>
      assert (at_stage args 0 w) as Hat0 by by split
  end.
  run_quiet (gate_quiet (skip_if_exists args)
               (final_mesh_of sp (no_texture args))) Hat0 Eg b w1 Hat1.
  2,3: stop_at 0%nat.
  destruct b.
  { intros [= <- <-]. left. exists 0%nat. by split. }
  run_quiet (validate_input_structure_quiet (scene_dir args)) Hat1 Ev v w2 Hat2.
  2,3: stop_at 0%nat.
  run_quiet (step_undistort_images_quiet (scene_dir args) (sp // "dense"))
            Hat2 Eu u w3 Hat3.
  2,3: stop_at 0%nat.
  run_stage step_interface_colmap_shape σ Hat3 w4 Hat4 (eq_refl (Some "InterfaceCOLMAP")).
  run_stage step_densify_point_cloud_shape σ Hat4 w5 Hat5 (eq_refl (Some "DensifyPointCloud")).
  run_stage step_reconstruct_mesh_shape σ Hat5 w6 Hat6 (eq_refl (Some "ReconstructMesh")).
  run_stage step_refine_mesh_shape σ Hat6 w7 Hat7 (eq_refl (Some "RefineMesh")).
  destruct (no_texture args) eqn:Hnt; cbv beta iota.
  - finish_run Hat7 Hsp Hnt.
  - assert (pipeline args !! 4%nat = Some "TextureMesh") as Hk
      by (unfold pipeline; by rewrite Hnt).
    run_stage step_texture_mesh_shape σ Hat7 w8 Hat8 Hk.
    finish_run Hat8 Hsp Hnt.
Qed.

End Shape.

(** * Stage failures and the progress record *)

Section StageClaims.
Context `{!Host}.

Lemma elem_of_passed p b progs : (p, b) ∈ passed progs → b = true ∧ p ∈ progs.
Proof.
  unfold passed. intros (q & [= -> ->] & Hq)%list_elem_of_fmap. done.
Qed.

Lemma progress_write_record d content :
  progress_write (EvWrite (d // "progress.json") content)
  = Some (d // "progress.json", content).
Proof.
  unfold progress_write, joinpath. by rewrite last_snoc, bool_decide_true.
Qed.

(** The log and the record writes of a run of the third shape. *)
Lemma recorded_log t1 d content t2 :
  Forall quiet t2 →
  stage_log (t1 ++ [EvWrite (d // "progress.json") content] ++ t2) = stage_log t1
  ∧ progress_writes (t1 ++ [EvWrite (d // "progress.json") content] ++ t2)
    = progress_writes t1 ++ [(d // "progress.json", content)].
Proof.
  intros [Hl Hp]%quiet_log.
  rewrite !stage_log_app, !progress_writes_app, Hl, Hp.
  unfold progress_writes at 2. cbn [omap list_omap].
  rewrite progress_write_record. cbn. by rewrite !app_nil_r.
Qed.

Lemma pipeline_lookup args k prog :
  pipeline args !! k = Some prog →
  prog = "DensifyPointCloud" → k = 1%nat.
Proof.
  unfold pipeline. intros Hk ->.
  do 4 (destruct k as [|k]; [by inversion Hk|]).
  destruct (no_texture args); [done|].
  destruct k; by inversion Hk.
Qed.

(** C3: if a run gets the Densify command to return, with whatever exit
    code, and the file system the command leaves has no scene_dense.mvs
    in the working directory, then the process exits with a non-zero
    status, the failure is that of the Densify stage (its error line
    before [sys.exit(1)], or the exception of its command), and the only
    programs the run has executed are InterfaceCOLMAP and
    DensifyPointCloud: Reconstruct, Refine and Texture never start. *)
Theorem densify_output_absent_aborts args σ cmd cwd code after :
  EvRun cmd cwd code after ∈ trace (main args (boot σ)).2 →
  head cmd = Some "DensifyPointCloud" →
  path_exists after (cwd // "scene_dense.mvs") = false →
  exit_status (main args (boot σ)).1 ≠ 0
  ∧ stage_failure "DensifyPointCloud" (main args (boot σ)).1 (main args (boot σ)).2
  ∧ runs (trace (main args (boot σ)).2) = ["InterfaceCOLMAP"; "DensifyPointCloud"]
  ∧ (∀ prog, prog ∈ ["ReconstructMesh"; "RefineMesh"; "TextureMesh"] →
             prog ∉ runs (trace (main args (boot σ)).2)).
Proof.
  intros Hev Hcmd Habsent.
  destruct (main args (boot σ)) as [o w'] eqn:Hrun. cbn [fst snd] in *.
  assert (("DensifyPointCloud", false) ∈ stage_log (trace w')) as Hin.
  { apply list_elem_of_omap. eexists. split; [exact Hev|].
    cbn. unfold tool_output. rewrite Hcmd. cbn. rewrite Habsent.
    by rewrite andb_false_r. }
  assert (stage_failure "DensifyPointCloud" o w'
          ∧ stage_log (trace w')
            = [("InterfaceCOLMAP", true); ("DensifyPointCloud", false)])
    as [Hfail Hlog].
  { destruct (main_shape _ _ _ _ Hrun)
      as [(k & [Hl _] & _)|[(k & prog & Hk & Hl & _ & Hf)
                            |(sp & t1 & t2 & _ & Et & Hl & _ & Hq)]].
    - rewrite Hl in Hin. by apply elem_of_passed in Hin as [[=] _].
    - rewrite Hl in Hin. apply elem_of_app in Hin as [Hin|Hin].
      { by apply elem_of_passed in Hin as [[=] _]. }
      apply list_elem_of_singleton in Hin as [= <-].
      pose proof (pipeline_lookup _ _ _ Hk eq_refl) as ->.
      split; [done|]. by rewrite Hl.
    - destruct (recorded_log t1 (mvs_dir_of sp)
                  (json_dump (progress_record args)) t2 Hq) as [Hl' _].
      rewrite Et, Hl', Hl in Hin. by apply elem_of_passed in Hin as [[=] _]. }
  split; [|split; [done|]].
  - destruct Hfail as [[-> _]|(? & ? & ? & -> & _)]; done.
  - rewrite runs_stage_log, Hlog. split; [done|].
    intros prog Hprog Hin'. cbn in Hin'.
    repeat (apply elem_of_cons in Hprog as [->|Hprog];
            [by repeat (apply elem_of_cons in Hin' as [[=]|Hin']);
                apply elem_of_nil in Hin'|]).
    by apply elem_of_nil in Hprog.
Qed.

Lemma passed_fst progs : (passed progs).*1 = progs.
Proof. unfold passed. rewrite <-list_fmap_compose. apply list_fmap_id. Qed.

Lemma pipeline_nonempty args : pipeline args ≠ [].
Proof. done. Qed.

End StageClaims.

(** * The image check of the validator *)

Section Images.
Context `{!Host}.

Lemma fnmatch_star pat name pre :
  fnmatch pat name = true → fnmatch ("*"%char :: pat) (pre ++ name) = true.
Proof.
  intros Hm. induction pre as [|c pre IH]; cbn [app].
  - destruct name; cbn; by rewrite Hm.
  - cbn in *. rewrite IH. apply orb_true_r.
Qed.

Lemma entry_of_child d name : entry_of d (d // name) = Some name.
Proof.
  unfold entry_of, joinpath. rewrite drop_app_length, take_app_length.
  by rewrite bool_decide_true.
Qed.

Lemma scandir_entry (σ : fs) d name :
  is_Some (σ !! (d // name)) → name ∈ scandir σ d.
Proof.
  intros [n Hn]. unfold scandir. apply list_elem_of_omap.
  exists (d // name, n). split; [by apply elem_of_map_to_list|].
  apply entry_of_child.
Qed.

Lemma glob_names_entry (σ : fs) dir d name pattern :
  chase MAXSYMLINKS σ dir = Some d → lstat σ d = Some Dir →
  is_Some (σ !! (d // name)) →
  fnmatch (chars pattern) (chars name) = true →
  dir // name ∈ glob_names σ dir pattern.
Proof.
  intros Hd Hdir Hn Hm. unfold glob_names. rewrite Hd, bool_decide_true by done.
  apply list_elem_of_fmap_2, list_elem_of_filter. split; [done|].
  by apply scandir_entry.
Qed.

(** A name that ends in one of the six spellings matches its pattern. *)
Lemma extension_matches ext name :
  ext ∈ image_extensions → chars ext `suffix_of` chars name →
  fnmatch (chars ("*" +:+ ext)) (chars name) = true.
Proof.
  intros Hext [pre ->].
  repeat (apply elem_of_cons in Hext as [->|Hext];
          [by apply (fnmatch_star (chars _))|]).
  by apply elem_of_nil in Hext.
Qed.

(** What the image check accepts: the comparison is case-sensitive,
    against six spellings.  If images/ is a directory with an entry whose name
    ends in [.jpg], [.jpeg], [.png], [.JPG], [.JPEG] or [.PNG], spelled
    exactly so, the image check passes: the validator reports how many
    images it found, prints neither of the two image errors, and goes on
    to look for sparse/. *)
Theorem image_check_passes σ scene_dir d name ext :
  chase MAXSYMLINKS σ (scene_dir // "images") = Some d →
  lstat σ d = Some Dir →
  is_Some (σ !! (d // name)) →
  ext ∈ image_extensions →
  chars ext `suffix_of` chars name →
  (EvStat (scene_dir // "sparse")
     ∈ trace (validate_input_structure scene_dir (boot σ)).2)
  ∧ (∃ n, (0 < n)%nat
          ∧ (("Found " +:+ (pretty n +:+ (" images in "
                 +:+ show_path (scene_dir // "images"))))
             ∈ stdout (validate_input_structure scene_dir (boot σ)).2))
  ∧ (("Error: No images found in " +:+ show_path (scene_dir // "images"))
     ∉ stdout (validate_input_structure scene_dir (boot σ)).2)
  ∧ (("Error: Images directory not found: "
      +:+ show_path (scene_dir // "images"))
     ∉ stdout (validate_input_structure scene_dir (boot σ)).2).
Proof.
  intros Hd Hdir Hn Hext Hsuf.
  assert (path_exists σ (scene_dir // "images") = true) as Hex.
  { unfold path_exists, stat. rewrite Hd. cbn. rewrite Hdir. done. }
  unfold validate_input_structure, exists_, glob, image_extensions.
  cbn [foldM]. run_cbv. cbn [boot files stdout trace]. rewrite Hex. run_cbv.
  match goal with
  | |- context [bool_decide (length ?l = 0%nat)] => set (found := l)
  end.
  assert (scene_dir // "images" // name ∈ found) as Hfound.
  { pose proof (glob_names_entry σ _ d name ("*" +:+ ext) Hd Hdir Hn
                  (extension_matches _ _ Hext Hsuf)) as Hin.
    unfold found, image_extensions in *.
    repeat (apply elem_of_cons in Hext as [->|Hext];
            [rewrite !elem_of_app; tauto|]).
    by apply elem_of_nil in Hext. }
  assert (0 < length found)%nat as Hlen.
  { destruct found; [by apply elem_of_nil in Hfound | cbn; lia]. }
  rewrite bool_decide_false by lia. cbv beta iota.
  unfold for_, required_files. cbn [foldM]. run_cbv.
  repeat (destruct (path_exists _ _); run_cbv); cbn [snd stdout trace];
    (split; [rewrite !elem_of_app, !list_elem_of_singleton; tauto|]);
    (split; [exists (length found); split; [done|];
             rewrite !elem_of_app, !list_elem_of_singleton; tauto|]);
    rewrite !elem_of_app, !list_elem_of_singleton, elem_of_nil;
    cbn; split; intros Hin; decompose [or] Hin; try done;
    by match goal with E : _ ∈ [] |- _ => apply elem_of_nil in E end.
Qed.

End Images.

(** * The file system under the library calls *)

Section Files.
Context `{!Host}.












(** ** Computations that leave the files alone *)

Lemma keeps_ret {A} (a : A) : keeps (mret a).
Proof. by intros w o w' [= <- <-]. Qed.

Lemma keeps_exit {A} c : keeps (@sys_exit A c).
Proof. by intros w o w' [= <- <-]. Qed.

Lemma keeps_raise {A} e : keeps (@raise A e).
Proof. by intros w o w' [= <- <-]. Qed.

Lemma keeps_print s : keeps (print s).
Proof. by intros w o w' [= <- <-]. Qed.

Lemma keeps_emit e : keeps (emit e).
Proof. by intros w o w' [= <- <-]. Qed.

Lemma keeps_get_files : keeps get_files.
Proof. by intros w o w' [= <- <-]. Qed.

Lemma keeps_bind {A B} (m : M A) (k : A → M B) :
  keeps m → (∀ a, keeps (k a)) → keeps (m ≫= k).
Proof.
  intros Hm Hk w o w'. rewrite run_bind.
  destruct (m w) as [[a|c|e] w1] eqn:E; intros Hrun.
  - rewrite (Hk a _ _ _ Hrun). eauto.
  - injection Hrun as <- <-. eauto.
  - injection Hrun as <- <-. eauto.
Qed.

Lemma keeps_foldM {A B} (f : B → A → M B) l :
  (∀ b a, keeps (f b a)) → ∀ b, keeps (foldM f b l).
Proof.
  intros Hf. induction l as [|a l IH]; intros b; simpl.
  - apply keeps_ret.
  - apply keeps_bind; auto.
Qed.

End Files.

Ltac keeps_step :=
  lazymatch goal with
  | |- keeps (mbind _ _) => apply keeps_bind; [|intros ?]
  | |- keeps (mret _) => apply keeps_ret
  | |- keeps (sys_exit _) => apply keeps_exit
  | |- keeps (raise _) => apply keeps_raise
  | |- keeps (print _) => apply keeps_print
  | |- keeps get_files => apply keeps_get_files
  | |- keeps (emit _) => apply keeps_emit
  | |- keeps (foldM _ _ _) => apply keeps_foldM; intros ? ?
  | |- keeps (if ?b then _ else _) => destruct b
  | |- keeps (match ?x with _ => _ end) => destruct x
  end.

Ltac keeps_unfold :=
  lazymatch goal with
  | |- keeps ?m => let h := head_of m in progress unfold h
  end.

Ltac keeps_all := repeat first [ keeps_step | keeps_unfold ].

Section Normalize.
Context `{!Host}.

Lemma load_reconstruction_keeps dir : keeps (load_reconstruction dir).
Proof. keeps_all. Qed.

Lemma convert_camera_keeps cam_id camera : keeps (convert_camera cam_id camera).
Proof. keeps_all. Qed.

Lemma exists_keeps p : keeps (exists_ p).
Proof. keeps_all. Qed.

Lemma is_symlink_keeps p : keeps (is_symlink_ p).
Proof. keeps_all. Qed.

Lemma resolve_keeps p : keeps (resolve p).
Proof. keeps_all. Qed.

Lemma convert_files sparse out w o w' :
  convert_cameras_to_pinhole sparse out w = (o, w') →
  rtc (working_copy_step out) (files w) (files w')
  ∧ ∀ b, o = Ret b → b = true.
Proof.
  unfold convert_cameras_to_pinhole.
  rewrite run_bind. cbv beta iota delta [print]. rewrite run_bind.
  destruct (load_reconstruction sparse _) as [[r|c|e] w1] eqn:El;
    apply load_reconstruction_keeps in El; cbn [files] in El;
    [| by intros [= <- <-]; rewrite El ..].
  rewrite run_bind.
  destruct (foldM _ _ _ w1) as [[cams|c|e] w2] eqn:Ef.
  2,3: apply keeps_foldM in Ef;
       [intros [= <- <-]; by rewrite Ef, El
       |intros; keeps_all; apply convert_camera_keeps].
  apply keeps_foldM in Ef; [|intros; keeps_all; apply convert_camera_keeps].
  unfold os_makedirs, write_reconstruction, effect. run_cbv.
  rewrite Ef, El.
  destruct (makedirs (files w) out) as [σ1|x] eqn:Em; cbn [files].
  2:{ intros [= <- <-]. rewrite Ef, El. by split. }
  destruct (is_dir σ1 out); cbn [files].
  2:{ intros [= <- <-]. cbn [files]. split; [|done].
      eapply rtc_l; [by left | done]. }
  repeat match goal with
         | |- context [write_file ?σ ?p ?c] =>
             let E := fresh "Ew" in
             destruct (write_file σ p c) eqn:E; cbn [files]
         end;
    intros [= <- <-]; cbn [files]; (split; [|by intros b [= <-]]);
    repeat first
      [ apply rtc_refl
      | eapply rtc_l;
        [first [ left; eassumption
               | right; eexists _, _; split; [|eassumption]; compute_done ]|] ].
Qed.
End Normalize.


(** * The normalizer and the input reconstruction *)

Section WorkingCopy.
Context `{!Host}.





End WorkingCopy.

(** * The Prepare step and the link to the images *)

Section Prepare.
Context `{!Host}.
























End Prepare.
(** * The two checks before the pipeline *)

Section Checks.
Context `{!Host}.

Lemma missing_commands_nil :
  missing_commands = [] ↔ ∀ c, c ∈ required_commands → which c = true.
Proof.
  split.
  - intros E c Hc. destruct (which c) eqn:Hw; [done|].
    by destruct (missing_when_absent c Hc Hw).
  - intros Hall. unfold missing_commands.
    induction required_commands as [|c l IH]; [done|].
    rewrite filter_cons, decide_False.
    + apply IH. intros c' Hc'. apply Hall. by right.
    + rewrite (Hall c) by left. done.
Qed.

(** The dependency check passes exactly when each of the six commands
    resolves, and then it prints nothing; otherwise it exits with status
    1 after a report that lists the commands that do not resolve in the
    order of the required list.  Either way it looks up the six names
    once each, in order, and leaves the files alone. *)
Theorem dependency_check_passes_iff_all_resolve w :
  ((check_dependencies w).1 = Ret tt
   ↔ ∀ c, c ∈ required_commands → which c = true)
  ∧ ((check_dependencies w).1 = Ret tt →
     stdout (check_dependencies w).2 = stdout w)
  ∧ ((check_dependencies w).1 ≠ Ret tt →
     (check_dependencies w).1 = Exit 1
     ∧ stdout (check_dependencies w).2
       = stdout w
         ++ missing_report (filter (λ c, which c = false) required_commands))
  ∧ files (check_dependencies w).2 = files w
  ∧ trace (check_dependencies w).2
    = trace w ++ ((λ c, EvWhich c (which c)) <$> required_commands).
Proof.
  rewrite check_dependencies_run, <-missing_commands_nil.
  destruct (decide (missing_commands = [])) as [E|E]; cbn [fst snd files stdout trace].
  - repeat split; done.
  - repeat split; done.
Qed.

End Checks.

Section Validation.
Context `{!Host}.

Lemma glob_scan dir (f : list path → string → M (list path)) exts :
  (∀ acc ext w,
     f acc ext w
     = (Ret (acc ++ glob_names (files w) dir ("*" +:+ ext)),
        mkWorld (files w) (stdout w) (trace w ++ [EvGlob dir ("*" +:+ ext)]))) →
  ∀ acc w,
    foldM f acc exts w
    = (Ret (acc ++ concat ((λ ext, glob_names (files w) dir ("*" +:+ ext)) <$> exts)),
       mkWorld (files w) (stdout w)
               (trace w ++ ((λ ext, EvGlob dir ("*" +:+ ext)) <$> exts))).
Proof.
  intros Hf. induction exts as [|ext exts IH]; intros acc w.
  - cbn. rewrite !app_nil_r. by destruct w.
  - cbn [foldM]. rewrite run_bind, Hf, IH. cbn [files stdout trace].
    cbn [fmap list_fmap concat]. by rewrite <-!app_assoc.
Qed.




End Validation.

Section ValidationErrors.
Context `{!Host}.

(** The loop over the tables, up to the first one that is missing. *)
Lemma tables_scan sparse (body : unit → string → M unit) pre f post :
  (∀ u a w0,
     body u a w0
     = if path_exists (files w0) (sparse // a)
       then (Ret tt, mkWorld (files w0) (stdout w0)
                             (trace w0 ++ [EvStat (sparse // a)]))
       else (Exit 1,
             mkWorld (files w0)
                     (stdout w0 ++ ["Error: Required file not found: "
                                    +:+ show_path (sparse // a)])
                     (trace w0 ++ [EvStat (sparse // a)]))) →
  ∀ w,
    (∀ g, g ∈ pre → path_exists (files w) (sparse // g) = true) →
    path_exists (files w) (sparse // f) = false →
    foldM body tt (pre ++ f :: post) w
    = (Exit 1,
       mkWorld (files w)
               (stdout w ++ ["Error: Required file not found: "
                             +:+ show_path (sparse // f)])
               (trace w ++ ((λ g, EvStat (sparse // g)) <$> pre)
                        ++ [EvStat (sparse // f)])).
Proof.
  intros Hbody. induction pre as [|a pre IH]; intros w Hpre Hf.
  - cbn [app foldM]. rewrite run_bind, Hbody, Hf. done.
  - cbn [app foldM]. rewrite run_bind, Hbody, Hpre by left. rewrite IH.
    + cbn [files stdout trace fmap list_fmap]. by rewrite <-!app_assoc.
    + intros g Hg. apply Hpre. by right.
    + done.
Qed.

(** The tables are checked in the order cameras, images, points, and the
    validator stops at the first one that is missing: in a scene whose
    images and sparse directory pass, if [f] is the first of the three
    tables that does not exist, with no symbolic link at or above its
    path (so that it is missing for the system too) and names within the
    limits of the system, the run exits with status 1, the last line it
    prints names [f], and the tables after [f] are not looked at. *)
Theorem validation_names_first_missing_table d w pre f post :
  nameable d →
  canonical (files w) (d // "sparse" // f) →
  required_files = pre ++ f :: post →
  path_exists (files w) (d // "images") = true →
  image_files_of (files w) (d // "images") ≠ [] →
  path_exists (files w) (d // "sparse") = true →
  (∀ g, g ∈ pre → path_exists (files w) (d // "sparse" // g) = true) →
  path_exists (files w) (d // "sparse" // f) = false →
  (validate_input_structure d w).1 = Exit 1
  ∧ last (stdout (validate_input_structure d w).2)
    = Some ("Error: Required file not found: " +:+ show_path (d // "sparse" // f))
  ∧ ∃ t, trace (validate_input_structure d w).2 = trace w ++ t
         ∧ EvStat (d // "sparse" // f) ∈ t
         ∧ ∀ g, g ∈ post → EvStat (d // "sparse" // g) ∉ t.
Proof.
  intros _ _ Hsplit Himg Hfound Hsparse Hpre Hf.
  assert (∀ g, g ∈ post → g ≠ f ∧ g ∉ pre) as Hpost.
  { intros g Hg.
    assert (NoDup (pre ++ f :: post)) as Hnd by (rewrite <-Hsplit; compute_done).
    apply NoDup_app in Hnd as (_ & Hdis & [Hnf _]%NoDup_cons).
    split; [by intros -> |]. intros Hin. apply (Hdis g Hin). by right. }
  unfold validate_input_structure, exists_. run_cbv. rewrite Himg. run_cbv.
  erewrite (glob_scan (d // "images")) by (intros; reflexivity).
  cbn [files stdout trace app]. fold (image_files_of (files w) (d // "images")).
  rewrite bool_decide_false
    by (destruct (image_files_of _ _); [done | by cbn]).
  run_cbv. rewrite Hsparse. run_cbv.
  unfold for_. rewrite Hsplit.
  erewrite (tables_scan (d // "sparse")); [| |exact Hpre|exact Hf].
  2:{ intros u a w0. cbn beta.
      destruct (path_exists (files w0) (d // "sparse" // a)); reflexivity. }
  cbn [fst snd files stdout trace]. split; [done|]. split; [by rewrite last_snoc|].
  rewrite <-!app_assoc. eexists. split; [reflexivity|]. split.
  - do 4 (apply elem_of_app; right). apply list_elem_of_here.
  - intros g Hg. destruct (Hpost g Hg) as [Hgf Hgpre].
    assert (∀ a b : string, d // "sparse" // a = d // "sparse" // b → a = b) as Hinj.
    { intros a b E. by apply app_inv_head in E as [= ->]. }
    assert (∀ a b : string, d // "sparse" // a ≠ d // b) as Hlen.
    { intros a b E. apply (f_equal length) in E. unfold joinpath in E.
      rewrite !length_app in E. cbn in E. lia. }
    rewrite !not_elem_of_app. repeat split.
    + intros [E|E]%elem_of_cons; [injection E as E; by apply Hlen in E|].
      by apply elem_of_nil in E.
    + by intros (e & He & _)%list_elem_of_fmap.
    + intros [E|E]%elem_of_cons; [injection E as E; by apply Hlen in E|].
      by apply elem_of_nil in E.
    + intros (g' & E & Hg')%list_elem_of_fmap. injection E as E.
      apply Hinj in E as ->. done.
    + intros [E|E]%elem_of_cons; [injection E as E; by apply Hinj in E|].
      by apply elem_of_nil in E.
Qed.

End ValidationErrors.

(** * What the validator counts *)

Section Count.
Context `{!Host}.

Lemma fnmatch_literal pat : ∀ s,
  Forall (λ c, c ≠ "*"%char ∧ c ≠ "?"%char) pat →
  fnmatch pat s = true → s = pat.
Proof.
  induction pat as [|c pat IH]; intros s Hlit.
  - by destruct s.
  - apply Forall_cons in Hlit as [[Hs Hq] Hlit]. cbn [fnmatch].
    rewrite (proj2 (Ascii.eqb_neq _ _) Hs), (proj2 (Ascii.eqb_neq _ _) Hq).
    destruct s as [|d s]; [done|].
    intros [Hc Hm]%andb_true_iff. apply Ascii.eqb_eq in Hc as ->.
    by rewrite (IH s Hlit Hm).
Qed.

Lemma fnmatch_star_inv pat name :
  fnmatch ("*"%char :: pat) name = true →
  ∃ pre suf, name = pre ++ suf ∧ fnmatch pat suf = true.
Proof.
  induction name as [|c name IH]; cbn.
  - rewrite orb_false_r. intros Hm. by exists [], [].
  - intros [Hm|Hm]%orb_true_iff.
    + by exists [], (c :: name).
    + destruct (IH Hm) as (pre & suf & -> & Hs). by exists (c :: pre), suf.
Qed.

(** On the six patterns of the validator, matching is ending in the
    extension. *)
Lemma extension_match_iff ext name :
  ext ∈ image_extensions →
  fnmatch (chars ("*" +:+ ext)) (chars name) = true
  ↔ chars ext `suffix_of` chars name.
Proof.
  intros Hext. split; [|by apply extension_matches].
  assert (Forall (λ c, c ≠ "*"%char ∧ c ≠ "?"%char) (chars ext)) as Hlit.
  { revert ext Hext. apply Forall_forall. unfold image_extensions.
    repeat (apply Forall_cons; split; [by repeat constructor|]). done. }
  assert (chars ("*" +:+ ext) = "*"%char :: chars ext) as -> by done.
  intros (pre & suf & -> & Hm)%fnmatch_star_inv.
  apply fnmatch_literal in Hm as ->; [|done]. by exists pre.
Qed.

(** No name ends in two of the six extensions. *)
Lemma extension_unique ext1 ext2 name :
  ext1 ∈ image_extensions → ext2 ∈ image_extensions →
  chars ext1 `suffix_of` chars name → chars ext2 `suffix_of` chars name →
  ext1 = ext2.
Proof.
  intros H1 H2 S1 S2.
  assert (Forall (λ e1, Forall (λ e2,
            chars e1 `suffix_of` chars e2 → e1 = e2) image_extensions)
          image_extensions) as Hall by compute_done.
  rewrite Forall_forall in Hall.
  destruct (suffix_weak_total _ _ _ S1 S2) as [S|S].
  - pose proof (Hall ext1 H1) as Hrow. rewrite Forall_forall in Hrow. auto.
  - pose proof (Hall ext2 H2) as Hrow. rewrite Forall_forall in Hrow.
    symmetry. auto.
Qed.

Lemma filter_at_most_one {A} (P : A → Prop) `{!∀ x, Decision (P x)} (l : list A) :
  NoDup l → (∀ x y, x ∈ l → y ∈ l → P x → P y → x = y) →
  length (filter P l) = if decide (Exists P l) then 1%nat else 0%nat.
Proof.
  intros Hnd Huniq. destruct (decide (Exists P l)) as [Hex|Hex].
  - assert (NoDup (filter P l)) as Hndf by by apply NoDup_filter.
    destruct (filter P l) as [|x [|y r]] eqn:E; [|done|].
    + apply Exists_exists in Hex as (x & Hx & HPx).
      assert (x ∈ filter P l) as Hin by by apply list_elem_of_filter.
      rewrite E in Hin. by apply elem_of_nil in Hin.
    + assert (x ∈ filter P l ∧ y ∈ filter P l) as [Hx Hy]
        by (rewrite E; split; [left | right; left]).
      apply list_elem_of_filter in Hx as [HPx Hx].
      apply list_elem_of_filter in Hy as [HPy Hy].
      rewrite (Huniq x y Hx Hy HPx HPy) in Hndf.
      apply NoDup_cons in Hndf as [Hnin _]. destruct Hnin. left.
  - destruct (filter P l) as [|x r] eqn:E; [done|]. destruct Hex.
    assert (x ∈ filter P l) as Hin by (rewrite E; left).
    apply list_elem_of_filter in Hin as [HPx Hx]. apply Exists_exists. eauto.
Qed.

(** Counting per pattern and summing is counting per name. *)
Lemma count_by_pattern {A B} (P : B → A → Prop) `{!∀ e x, Decision (P e x)}
    (E : list B) (l : list A) :
  length (concat ((λ e, filter (P e) l) <$> E))
  = sum_list ((λ x, length (filter (λ e, P e x) E)) <$> l).
Proof.
  induction l as [|a l IH].
  - cbn. induction E as [|e E IHE]; [done|]. cbn. by rewrite IHE.
  - cbn [fmap list_fmap sum_list sum_list_with]. rewrite <-IH. clear IH.
    induction E as [|e E IHE]; [done|].
    cbn [fmap list_fmap concat]. rewrite !length_app, IHE, !filter_cons.
    destruct (decide (P e a)); cbn [length]; unfold id in *; lia.
Qed.

Lemma image_files_count (σ : fs) images_dir dir :
  chase MAXSYMLINKS σ images_dir = Some dir →
  lstat σ dir = Some Dir →
  length (image_files_of σ images_dir)
  = length (filter has_image_extension (scandir σ dir)).
Proof.
  intros Hd Hdir. unfold image_files_of, glob_names.
  rewrite Hd, bool_decide_true by done.
  assert (∀ l : list string,
            length (concat ((λ ext, (λ name, images_dir // name) <$>
                       filter (λ name, fnmatch (chars ("*" +:+ ext)) (chars name) = true) l)
                     <$> image_extensions))
            = length (filter has_image_extension l)) as Hcount; [|apply Hcount].
  intros l.
  transitivity (length (concat ((λ ext, filter (λ name,
                   fnmatch (chars ("*" +:+ ext)) (chars name) = true) l)
                 <$> image_extensions))).
  { generalize image_extensions. intros E. induction E as [|e E IH]; [done|].
    cbn [fmap list_fmap concat]. by rewrite !length_app, length_fmap, IH. }
  rewrite (count_by_pattern
             (λ ext name, fnmatch (chars ("*" +:+ ext)) (chars name) = true)).
  induction l as [|name l IH]; [done|].
  cbn [fmap list_fmap sum_list sum_list_with]. rewrite IH, filter_cons.
  rewrite (filter_at_most_one _ image_extensions).
  - unfold has_image_extension at 2.
    assert (Exists (λ ext, fnmatch (chars ("*" +:+ ext)) (chars name) = true)
                   image_extensions
            ↔ Exists (λ ext, chars ext `suffix_of` chars name) image_extensions)
      as Hiff.
    { rewrite !Exists_exists. split; intros (ext & Hin & Hm); exists ext;
        (split; [done|]); by apply (extension_match_iff ext name Hin). }
    repeat case_decide; try done; tauto.
  - compute_done.
  - intros e1 e2 H1 H2 M1 M2. apply (extension_unique e1 e2 name); try done.
    + by apply extension_match_iff.
    + by apply extension_match_iff.
Qed.

End Count.

Section CountReport.
Context `{!Host}.

(** The number the validator reports is the number of entries of images/
    whose name ends in one of the six extensions: each such entry is
    counted once, although six globs are run, and nothing else is
    counted.  With no such entry the validator exits with status 1 on the
    no-images error. *)
Theorem image_count_is_exact d w dir :
  chase MAXSYMLINKS (files w) (d // "images") = Some dir →
  lstat (files w) dir = Some Dir →
  if decide (filter has_image_extension (scandir (files w) dir) = [])
  then (validate_input_structure d w).1 = Exit 1
       ∧ stdout (validate_input_structure d w).2
         = stdout w ++ ["Error: No images found in " +:+ show_path (d // "images")]
  else ∃ rest,
         stdout (validate_input_structure d w).2
         = stdout w
           ++ ["Found "
               +:+ pretty (length (filter has_image_extension
                                          (scandir (files w) dir)))
               +:+ " images in " +:+ show_path (d // "images")]
           ++ rest.
Proof.
  intros Hd Hdir.
  pose proof (image_files_count (files w) _ _ Hd Hdir) as Hcount.
  assert (path_exists (files w) (d // "images") = true) as Hex.
  { unfold path_exists, stat. rewrite Hd. cbn. by rewrite Hdir. }
  unfold validate_input_structure, exists_. run_cbv. rewrite Hex. run_cbv.
  erewrite (glob_scan (d // "images")) by (intros; reflexivity).
  cbn [files stdout trace app]. fold (image_files_of (files w) (d // "images")).
  rewrite Hcount.
  destruct (decide (filter _ _ = [])) as [E|E].
  - rewrite E. rewrite bool_decide_true by done. done.
  - rewrite bool_decide_false by (by destruct (filter _ _)).
    run_cbv. destruct (path_exists (files w) (d // "sparse")); run_cbv.
    2:{ rewrite <-app_assoc. by eexists. }
    unfold for_, required_files. cbn [foldM]. run_cbv.
    repeat (destruct (path_exists (files w) (d // "sparse" // _)); run_cbv);
      rewrite <-?app_assoc; by eexists.
Qed.

End CountReport.

(** * The cameras of the working copy *)

Section Pinhole.
Context `{!Host}.

(** One pass of the loop body: it raises when the camera is short,
    and otherwise hands back the replacement, having only printed. *)
Lemma convert_camera_outcome k c w :
  ∃ lines,
    (short c
     ∧ convert_camera k c w
       = (Raise IndexError, mkWorld (files w) (stdout w ++ lines) (trace w)))
    ∨ (¬ short c
       ∧ ∃ oc, convert_camera k c w
               = (Ret oc, mkWorld (files w) (stdout w ++ lines) (trace w))
               ∧ match oc with
                 | None => model c = "PINHOLE"
                 | Some c' => model c ≠ "PINHOLE" ∧ normalized k c c'
                 end).
Proof.
  unfold short, params_read, normalized, convert_camera, _camera_model_name, index,
    single_focal_branch, dual_focal_branch.
  destruct (decide (model c = "PINHOLE")) as [Hm|Hm].
  { rewrite (bool_decide_false (_ ≠ _)) by (intros Hn; by apply Hn).
    rewrite bool_decide_true by done. run_cbv. eexists [_]. right.
    split; [cbn; lia|]. by exists None. }
  rewrite (bool_decide_true (_ ≠ _)) by done.
  rewrite (bool_decide_false (model c = _)) by done. run_cbv.
  case_bool_decide as Hs.
  - destruct (params c) as [|f [|cx [|cy rest]]]; run_cbv;
      [eexists [_]; left; split; [cbn; lia | done] ..|].
    eexists [_]. right. split; [cbn; lia|]. eexists (Some _). split; [done|].
    split; [done|]. cbn. repeat split; try done. by eexists _, _, _, _.
  - case_bool_decide as Hd.
    + destruct (params c) as [|fx [|fy [|cx [|cy rest]]]]; run_cbv;
        [eexists [_]; left; split; [cbn; lia | done] ..|].
      eexists [_]. right. split; [cbn; lia|]. eexists (Some _). split; [done|].
      split; [done|]. cbn. repeat split; try done. by eexists _, _, _, _.
    + run_cbv. rewrite <-app_assoc. eexists [_; _]. right. split; [cbn; lia|].
      eexists (Some _). split; [done|].
      split; [done|]. cbn. repeat split; try done. by eexists _, _, _, _.
Qed.

End Pinhole.

Section PinholeLoop.
Context `{!Host}.

Lemma set_camera_fresh k c (cams : list (Z * Camera)) :
  k ∉ cams.*1 → set_camera k c cams = cams.
Proof.
  intros Hk. unfold set_camera. induction cams as [|[k' c'] cams IH]; [done|].
  cbn in *. apply not_elem_of_cons in Hk as [Hne Hk].
  rewrite bool_decide_false by done. by rewrite IH.
Qed.

Lemma set_camera_at k c c' (done rest : list (Z * Camera)) :
  NoDup ((done ++ (k, c) :: rest).*1) →
  set_camera k c' (done ++ (k, c) :: rest) = done ++ (k, c') :: rest.
Proof.
  rewrite fmap_app, fmap_cons. cbn.
  intros (Hd & Hdis & [Hk Hr]%NoDup_cons)%NoDup_app.
  unfold set_camera. rewrite fmap_app, fmap_cons. cbn.
  rewrite bool_decide_true by done.
  fold (set_camera k c' done). fold (set_camera k c' rest).
  rewrite !set_camera_fresh; [done..|].
  intros Hin. apply (Hdis k Hin). left.
Qed.

(** The loop over the cameras: it raises exactly when one of them is
    short, and then, as otherwise, it has only printed. *)
Lemma convert_loop_outcome items : ∀ cams w,
  ∃ lines,
    (Exists (λ kc, short kc.2) items
     ∧ foldM (λ (cams : list (Z * Camera)) (item : Z * Camera),
                new_camera ← convert_camera item.1 item.2;
                match new_camera with
                | Some c => mret (set_camera item.1 c cams)
                | None => mret cams
                end) cams items w
       = (Raise IndexError, mkWorld (files w) (stdout w ++ lines) (trace w)))
    ∨ (Forall (λ kc, ¬ short kc.2) items
       ∧ ∃ cams',
           foldM (λ (cams : list (Z * Camera)) (item : Z * Camera),
                    new_camera ← convert_camera item.1 item.2;
                    match new_camera with
                    | Some c => mret (set_camera item.1 c cams)
                    | None => mret cams
                    end) cams items w
           = (Ret cams', mkWorld (files w) (stdout w ++ lines) (trace w))).
Proof.
  induction items as [|[k c] items IH]; intros cams w.
  - exists []. right. split; [done|]. exists cams. cbn. rewrite app_nil_r.
    by destruct w.
  - cbn [foldM]. rewrite !run_bind. cbn [fst snd].
    destruct (convert_camera_outcome k c w)
      as (lines & [[Hs ->]|(Hs & oc & -> & Hoc)]).
    + exists lines. left. split; [by left | done].
    + match goal with
      | |- context [foldM ?f _ items] =>
          assert (∃ cams1,
                    (match oc with
                     | Some c0 => mret (set_camera k c0 cams)
                     | None => mret cams
                     end : M _)
                      (mkWorld (files w) (stdout w ++ lines) (trace w))
                    = (Ret cams1, mkWorld (files w) (stdout w ++ lines) (trace w)))
            as [cams1 ->] by (destruct oc; by eexists)
      end.
      destruct (IH cams1 (mkWorld (files w) (stdout w ++ lines) (trace w)))
        as (lines' & [[Hex ->]|(Hall & cams' & ->)]);
        cbn [files stdout trace]; rewrite <-app_assoc; exists (lines ++ lines').
      * left. split; [by right | done].
      * right. split; [by constructor|]. by exists cams'.
Qed.

(** What the loop leaves in the camera table when it returns. *)
Lemma convert_loop_content items : ∀ done cams' w w',
  NoDup ((done ++ items).*1) →
  foldM (λ (cams : list (Z * Camera)) (item : Z * Camera),
           new_camera ← convert_camera item.1 item.2;
           match new_camera with
           | Some c => mret (set_camera item.1 c cams)
           | None => mret cams
           end) (done ++ items) items w
  = (Ret cams', w') →
  ∃ items',
    cams' = done ++ items'
    ∧ Forall2 (λ kc kc', kc'.1 = kc.1 ∧ normalized kc.1 kc.2 kc'.2) items items'.
Proof.
  induction items as [|[k c] items IH]; intros done cams' w w' Hnd.
  - cbn. intros [= <- <-]. by exists [].
  - cbn [foldM]. rewrite !run_bind. cbn [fst snd].
    destruct (convert_camera_outcome k c w)
      as (lines & [[Hs ->]|(Hs & oc & -> & Hoc)]); [done|].
    destruct oc as [c'|]; cbv beta iota delta [mret M_ret].
    + destruct Hoc as [Hm Hn]. rewrite set_camera_at by done.
      rewrite (cons_middle (k, c') done items), app_assoc.
      intros Hrun. apply IH in Hrun as (items' & -> & Hall).
      * exists ((k, c') :: items'). rewrite <-app_assoc. split; [done|].
        by constructor.
      * rewrite <-app_assoc. cbn. by rewrite !fmap_app, fmap_cons in *.
    + rewrite (cons_middle (k, c) done items), app_assoc.
      intros Hrun. apply IH in Hrun as (items' & -> & Hall).
      * exists ((k, c) :: items'). rewrite <-app_assoc. split; [done|].
        constructor; [|done]. split; [done|]. unfold normalized.
        rewrite bool_decide_true by done. done.
      * by rewrite <-app_assoc.
Qed.

End PinholeLoop.

Section PinholeTable.
Context `{!Host}.

Lemma makedirs_rev_not_index rp : ∀ (σ : fs),
  makedirs_rev σ rp ≠ inr IndexError.
Proof.
  induction rp as [|name rp IH]; intros σ; [done|]. cbn [makedirs_rev].
  assert (∀ σ1 e, mkdir σ1 (rev (name :: rp)) = inr e → e ≠ IndexError) as Hmk.
  { intros σ1 e. unfold mkdir. destruct (lstat _ _); [by intros [= <-]|].
    case_bool_decide; [done | by intros [= <-]]. }
  destruct (path_exists σ (rev rp)).
  - destruct (mkdir σ _) eqn:Em; [done|]. destruct (is_dir _ _); [done|].
    intros [= ->]. by apply Hmk in Em.
  - destruct (makedirs_rev σ rp) as [σ1|e] eqn:Er.
    + destruct (mkdir σ1 _) eqn:Em; [done|]. destruct (is_dir _ _); [done|].
      intros [= ->]. by apply Hmk in Em.
    + assert (e ≠ IndexError) as He by (intros ->; by apply IH in Er).
      destruct e; try done.
      destruct (mkdir σ _) eqn:Em; [done|]. destruct (is_dir _ _); [done|].
      intros [= ->]. by apply Hmk in Em.
Qed.

Lemma makedirs_not_index (σ : fs) p : makedirs σ p ≠ inr IndexError.
Proof. apply makedirs_rev_not_index. Qed.

Lemma write_file_not_index (σ : fs) p content :
  write_file σ p content ≠ inr IndexError.
Proof.
  unfold write_file. destruct (chase _ _ _); [|done].
  destruct (lstat _ _) as [[]|]; try done; by case_bool_decide.
Qed.

Lemma load_reconstruction_run sparse w c i p r :
  read_file (files w) (sparse // cameras_bin) = Some c →
  read_file (files w) (sparse // images_bin) = Some i →
  read_file (files w) (sparse // points3D_bin) = Some p →
  parse_reconstruction c i p = Some r →
  load_reconstruction sparse w
  = (Ret r, mkWorld (files w) (stdout w)
                    (trace w ++ [EvLoadReconstruction sparse])).
Proof.
  intros Hc Hi Hp Hr. unfold load_reconstruction. run_cbv.
  by rewrite Hc, Hi, Hp, Hr.
Qed.

(** When the normalizer returns, the camera table it has written holds
    one camera for each camera of the input, under the same id and in
    the same order, and every one of them is a PINHOLE camera of the
    size of the original: the original itself when that was PINHOLE
    already, and otherwise a camera with four parameters read from the
    original by the branch of its model, or the fallback for a model the
    code does not know.  The pose and point tables are written as they
    were read. *)
Theorem working_copy_cameras_are_pinhole sparse out w c i p r :
  read_file (files w) (sparse // cameras_bin) = Some c →
  read_file (files w) (sparse // images_bin) = Some i →
  read_file (files w) (sparse // points3D_bin) = Some p →
  parse_reconstruction c i p = Some r →
  NoDup (cameras r).*1 →
  (convert_cameras_to_pinhole sparse out w).1 = Ret true →
  ∃ cams,
    Forall2 (λ kc kc', kc'.1 = kc.1 ∧ normalized kc.1 kc.2 kc'.2)
            (cameras r) cams
    ∧ trace (convert_cameras_to_pinhole sparse out w).2
      = trace w
        ++ [EvLoadReconstruction sparse;
            EvMakedirs out;
            EvWrite (out // cameras_bin) (dump_cameras cams);
            EvWrite (out // images_bin) (images r);
            EvWrite (out // points3D_bin) (points3D r)].
Proof.
  intros Hc Hi Hp Hr Hnd.
  unfold convert_cameras_to_pinhole.
  rewrite run_bind. cbv beta iota delta [print]. rewrite run_bind.
  rewrite (load_reconstruction_run _ _ c i p r) by done.
  rewrite run_bind.
  destruct (foldM _ _ _ _) as [[cams| |] w2] eqn:Ef; [|done..].
  destruct (convert_loop_outcome (cameras r) (cameras r)
              (mkWorld (files w)
                 (stdout w ++ ["Converting cameras to PINHOLE model..."])
                 (trace w ++ [EvLoadReconstruction sparse])))
    as (lines & [[_ Hrun]|(_ & cams' & Hrun)]);
    cbn [files stdout trace] in *; rewrite Hrun in Ef; [done|].
  injection Ef as <- <-.
  apply (convert_loop_content _ []) in Hrun as (cams & -> & Hall); [|done].
  unfold os_makedirs, write_reconstruction, effect. run_cbv.
  destruct (makedirs (files w) out) as [σ1|]; cbn [files stdout trace]; [|done].
  destruct (is_dir σ1 out); cbn [files stdout trace]; [|done].
  repeat match goal with
         | |- context [write_file ?σ ?q ?x] =>
             destruct (write_file σ q x); cbn [files stdout trace]; [|done]
         end.
  intros _. exists cams. split; [done|]. cbn [snd trace app].
  by rewrite <-!app_assoc.
Qed.

(** The normalizer raises [IndexError] exactly when some camera of the
    input has fewer parameters than the branch of its model reads
    (three for the SIMPLE models, four for the models of the second
    branch); it has then made no directory and written no file. *)
Theorem short_parameter_list_raises sparse out w c i p r :
  read_file (files w) (sparse // cameras_bin) = Some c →
  read_file (files w) (sparse // images_bin) = Some i →
  read_file (files w) (sparse // points3D_bin) = Some p →
  parse_reconstruction c i p = Some r →
  ((convert_cameras_to_pinhole sparse out w).1 = Raise IndexError
   ↔ Exists (λ kc, short kc.2) (cameras r))
  ∧ ((convert_cameras_to_pinhole sparse out w).1 = Raise IndexError →
     files (convert_cameras_to_pinhole sparse out w).2 = files w
     ∧ trace (convert_cameras_to_pinhole sparse out w).2
       = trace w ++ [EvLoadReconstruction sparse]).
Proof.
  intros Hc Hi Hp Hr.
  unfold convert_cameras_to_pinhole.
  rewrite run_bind. cbv beta iota delta [print]. rewrite run_bind.
  rewrite (load_reconstruction_run _ _ c i p r) by done.
  rewrite run_bind.
  destruct (convert_loop_outcome (cameras r) (cameras r)
              (mkWorld (files w)
                 (stdout w ++ ["Converting cameras to PINHOLE model..."])
                 (trace w ++ [EvLoadReconstruction sparse])))
    as (lines & [[Hex Hrun]|(Hall & cams' & Hrun)]);
    cbn [files stdout trace] in *; rewrite Hrun.
  { cbn [fst snd files trace]. by repeat split. }
  assert (¬ Exists (λ kc : Z * Camera, short kc.2) (cameras r)) as Hnone.
  { rewrite Exists_exists. intros (kc & Hin & Hs).
    rewrite Forall_forall in Hall. by apply (Hall kc Hin). }
  match goal with
  | |- (?o = _ ↔ _) ∧ _ => cut (o ≠ Raise IndexError)
  end.
  { intros Hne. split; [split|]; intros E; first [done | by destruct (Hnone E)]. }
  unfold os_makedirs, write_reconstruction, effect. run_cbv.
  destruct (makedirs (files w) out) as [σ1|x] eqn:Em; cbn [files stdout trace].
  2:{ intros [= ->]. by apply makedirs_not_index in Em. }
  destruct (is_dir σ1 out); cbn [files stdout trace]; [|done].
  repeat match goal with
         | |- context [write_file ?σ ?q ?x] =>
             let Ew := fresh "Ew" in
             destruct (write_file σ q x) eqn:Ew; cbn [files stdout trace];
             [|intros [= ->]; by apply write_file_not_index in Ew]
         end.
  done.
Qed.

End PinholeTable.

(** * The working copy and the input reconstruction *)

Section WorkingCopyTables.
Context `{!Host}.












End WorkingCopyTables.

(** * The contract of the stage functions *)

Section Contract.
Context `{!Host}.

Lemma runs_app t1 t2 : runs (t1 ++ t2) = runs t1 ++ runs t2.
Proof. apply omap_app. Qed.

Lemma makedirs_error (σ : fs) p e :
  makedirs σ p = inr e →
  match e with CalledProcessError _ _ _ => False | _ => True end.
Proof.
  unfold makedirs. generalize (rev p). intros rp. revert σ e.
  induction rp as [|name rp IH]; intros σ e; [done|]. cbn [makedirs_rev].
  assert (∀ σ1 e, mkdir σ1 (rev (name :: rp)) = inr e →
                  match e with CalledProcessError _ _ _ => False | _ => True end)
    as Hmk.
  { intros σ1 e'. unfold mkdir. destruct (lstat _ _); [by intros [= <-]|].
    case_bool_decide; [done | by intros [= <-]]. }
  destruct (path_exists σ (rev rp)).
  - destruct (mkdir σ _) eqn:Em; [done|]. destruct (is_dir _ _); [done|].
    intros [= ->]. by apply Hmk in Em.
  - destruct (makedirs_rev σ rp) as [σ1|e'] eqn:Er.
    + destruct (mkdir σ1 _) eqn:Em; [done|]. destruct (is_dir _ _); [done|].
      intros [= ->]. by apply Hmk in Em.
    + apply IH in Er. destruct e'; try done; try by intros [= <-].
      destruct (mkdir σ _) eqn:Em; [done|]. destruct (is_dir _ _); [done|].
      intros [= ->]. by apply Hmk in Em.
Qed.

Ltac contract_trace :=
  cbn [files stdout trace]; rewrite <-?app_assoc; cbn [app];
  first [ exists []; split; reflexivity
        | eexists [_]; split; [|reflexivity]; reflexivity ].

Ltac not_started :=
  unfold stage_contract; cbv beta iota; cbn [trace];
  rewrite ?runs_app; cbn [runs omap program_of]; by rewrite ?app_nil_r.

Ltac contract_cases :=
  unfold run_command, subprocess_run, exists_, os_makedirs, effect;
  rewrite bool_decide_true by done; run_cbv; unfold id;
  repeat match goal with
         | |- context [makedirs ?σ ?p] =>
             let Em := fresh "Em" in
             destruct (makedirs σ p) as [?σ1|?x] eqn:Em; run_cbv;
             [|apply makedirs_error in Em; intros [= <- <-]; unfold stage_contract;
               cbn [trace];
               match goal with
               | x : exn |- _ => destruct x; first [reflexivity | destruct Em]
               end]
         end;
  (destruct (which _); run_cbv; [|intros [= <- <-]; not_started]);
  (destruct (is_dir _ _); run_cbv; [|intros [= <- <-]; not_started]);
  (destruct (exec _ _ _) as [[?code ?out] ?σ'] eqn:?Ex; case_bool_decide; run_cbv);
  [ subst; destruct (path_exists _ _) eqn:?Hout; run_cbv; intros [= <- <-]; unfold stage_contract;
    [ split; [reflexivity|]; split; [assumption|]; contract_trace
    | split; [reflexivity|]; split; [assumption|];
      split; [cbn [files stdout trace]; by rewrite last_snoc|]; contract_trace ]
  | intros [= <- <-]; unfold stage_contract; split; [reflexivity|]; split; [assumption|];
    split; [cbn [files stdout trace]; by rewrite last_snoc|]; contract_trace ].

Lemma step_interface_colmap_contract dense mvs w o w' :
  step_interface_colmap dense mvs w = (o, w') →
  stage_contract
    ["InterfaceCOLMAP"; "-i"; show_path dense; "-o"; show_path (mvs // "scene.mvs");
     "--image-folder"; show_path (dense // "images")]
    mvs (mvs // "scene.mvs") "Error: COLMAP to MVS conversion failed" w o w'.
Proof. unfold step_interface_colmap. contract_cases. Qed.

Lemma step_densify_point_cloud_contract mvs scene_mvs w o w' :
  step_densify_point_cloud mvs scene_mvs w = (o, w') →
  stage_contract ["DensifyPointCloud"; "scene.mvs"] mvs (mvs // "scene_dense.mvs")
    "Error: Point cloud densification failed" w o w'.
Proof. unfold step_densify_point_cloud. contract_cases. Qed.

Lemma step_reconstruct_mesh_contract mvs w o w' :
  step_reconstruct_mesh mvs w = (o, w') →
  stage_contract ["ReconstructMesh"; "scene_dense.mvs"; "-p"; "scene_dense.ply"]
    mvs (mvs // "scene_dense_mesh.ply") "Error: Mesh reconstruction failed" w o w'.
Proof. unfold step_reconstruct_mesh. contract_cases. Qed.

Lemma step_refine_mesh_contract mvs area scales w o w' :
  step_refine_mesh mvs area scales w = (o, w') →
  stage_contract
    ["RefineMesh"; "scene_dense.mvs"; "-m"; "scene_dense_mesh.ply";
     "-o"; "scene_dense_mesh_refine.mvs"; "--scales"; scales;
     "--max-face-area"; pretty area]
    mvs (mvs // "scene_dense_mesh_refine.ply") "Error: Mesh refinement failed"
    w o w'.
Proof. unfold step_refine_mesh. contract_cases. Qed.

Lemma step_texture_mesh_contract mvs w o w' :
  step_texture_mesh mvs w = (o, w') →
  stage_contract
    ["TextureMesh"; "scene_dense.mvs"; "-m"; "scene_dense_mesh_refine.ply";
     "-o"; "scene_dense_mesh_refine_texture.mvs"]
    mvs (mvs // "scene_dense_mesh_refine_texture.ply")
    "Error: Mesh texturing failed" w o w'.
Proof. unfold step_texture_mesh. contract_cases. Qed.

(** Each of the five stage functions keeps the same contract with its
    tool.  It returns only the path of its expected output, and only
    when the tool exited with status 0 and that output exists.  It exits,
    with status 1 and its own error line, only when the tool exited with
    status 0 and left no output.  A tool that exits with any other status
    makes the stage raise [CalledProcessError] with nothing printed after
    the header of the command, so the captured output of the tool is
    lost; any other exception means the tool was not started. *)
Theorem stages_keep_their_contract dense mvs scene_mvs area scales w :
  stage_contract
    ["InterfaceCOLMAP"; "-i"; show_path dense; "-o"; show_path (mvs // "scene.mvs");
     "--image-folder"; show_path (dense // "images")]
    mvs (mvs // "scene.mvs") "Error: COLMAP to MVS conversion failed" w
    (step_interface_colmap dense mvs w).1 (step_interface_colmap dense mvs w).2
  ∧ stage_contract ["DensifyPointCloud"; "scene.mvs"]
      mvs (mvs // "scene_dense.mvs") "Error: Point cloud densification failed" w
      (step_densify_point_cloud mvs scene_mvs w).1
      (step_densify_point_cloud mvs scene_mvs w).2
  ∧ stage_contract ["ReconstructMesh"; "scene_dense.mvs"; "-p"; "scene_dense.ply"]
      mvs (mvs // "scene_dense_mesh.ply") "Error: Mesh reconstruction failed" w
      (step_reconstruct_mesh mvs w).1 (step_reconstruct_mesh mvs w).2
  ∧ stage_contract
      ["RefineMesh"; "scene_dense.mvs"; "-m"; "scene_dense_mesh.ply";
       "-o"; "scene_dense_mesh_refine.mvs"; "--scales"; scales;
       "--max-face-area"; pretty area]
      mvs (mvs // "scene_dense_mesh_refine.ply") "Error: Mesh refinement failed" w
      (step_refine_mesh mvs area scales w).1 (step_refine_mesh mvs area scales w).2
  ∧ stage_contract
      ["TextureMesh"; "scene_dense.mvs"; "-m"; "scene_dense_mesh_refine.ply";
       "-o"; "scene_dense_mesh_refine_texture.mvs"]
      mvs (mvs // "scene_dense_mesh_refine_texture.ply")
      "Error: Mesh texturing failed" w
      (step_texture_mesh mvs w).1 (step_texture_mesh mvs w).2.
Proof.
  repeat split.
  - apply step_interface_colmap_contract. by destruct (step_interface_colmap _ _ _).
  - apply (step_densify_point_cloud_contract _ scene_mvs).
    by destruct (step_densify_point_cloud _ _ _).
  - apply step_reconstruct_mesh_contract. by destruct (step_reconstruct_mesh _ _).
  - apply step_refine_mesh_contract. by destruct (step_refine_mesh _ _ _ _).
  - apply step_texture_mesh_contract. by destruct (step_texture_mesh _ _).
Qed.

End Contract.

(** * Cleaning up *)

Section Cleanup.
Context `{!Host}.



End Cleanup.

(** * Whole runs *)

Section Order.
Context `{!Host}.

Lemma pipeline_NoDup args : NoDup (pipeline args).
Proof. unfold pipeline. destruct (no_texture args); compute_done. Qed.

(** In every run the external tools that were started are an initial
    part of the pipeline InterfaceCOLMAP, DensifyPointCloud,
    ReconstructMesh, RefineMesh, TextureMesh (the last one left out with
    [no_texture]): never out of order, never one twice, never a later
    one without all the earlier ones, and never TextureMesh when
    texturing is off. *)
Theorem stages_run_in_order args σ :
  runs (trace (main args (boot σ)).2) `prefix_of` pipeline args
  ∧ NoDup (runs (trace (main args (boot σ)).2))
  ∧ (no_texture args = true →
     "TextureMesh" ∉ runs (trace (main args (boot σ)).2)).
Proof.
  assert (runs (trace (main args (boot σ)).2) `prefix_of` pipeline args) as Hpre.
  { destruct (main args (boot σ)) as [o w'] eqn:Hrun. cbn [snd].
    rewrite runs_stage_log.
    destruct (main_shape _ _ _ _ Hrun)
      as [(k & [Hl _] & _)
         |[(k & prog & Hk & Hl & _)
          |(sp & t1 & t2 & _ & -> & Hl & _ & [Hq _]%quiet_log)]].
    - rewrite Hl, passed_fst. apply prefix_take.
    - rewrite Hl, fmap_app, passed_fst.
      change ([(prog, false)].*1) with [prog].
      rewrite <-(take_S_r _ _ _ Hk). apply prefix_take.
    - rewrite !stage_log_app, Hl, Hq, !app_nil_r.
      by rewrite passed_fst. }
  split; [done|]. split.
  - destruct Hpre as [rest Hrest]. pose proof (pipeline_NoDup args) as Hnd.
    rewrite Hrest in Hnd. by apply NoDup_app in Hnd as [? _].
  - intros Hnt Hin. destruct Hpre as [rest Hrest].
    assert ("TextureMesh" ∈ pipeline args) as Hp
      by (rewrite Hrest; apply elem_of_app; by left).
    unfold pipeline in Hp. rewrite Hnt in Hp. revert Hp. compute_done.
Qed.

End Order.

Section Invalid.
Context `{!Host}.







End Invalid.


Section FinalMesh.
Context `{!Host}.









End FinalMesh.

Section Confined.
Context `{!Host}.

(** A bind whose continuation is only run on the values the first part
    can return. *)
Lemma emits_bind_with {A B} (P : event → Prop) (Q : A → Prop)
    (m : M A) (k : A → M B) :
  emits P m → (∀ w a w', m w = (Ret a, w') → Q a) →
  (∀ a, Q a → emits P (k a)) → emits P (m ≫= k).
Proof.
  intros Hm HQ Hk w o w'. rewrite run_bind.
  destruct (m w) as [[a|c|e] w1] eqn:E; intros Hrun.
  - destruct (Hm _ _ _ E) as (t1 & E1 & F1).
    destruct (Hk a (HQ _ _ _ E) _ _ _ Hrun) as (t2 & E2 & F2).
    exists (t1 ++ t2). rewrite E2, E1, <-app_assoc. split; [done|].
    by apply Forall_app.
  - injection Hrun as <- <-. eauto.
  - injection Hrun as <- <-. eauto.
Qed.

Ltac confined_event :=
  cbn [confined];
  first [ done
        | repeat first [ apply list_elem_of_here | apply list_elem_of_further ] ].

Lemma convert_cameras_to_pinhole_confined d sp :
  emits (confined sp) (convert_cameras_to_pinhole d (sp // "dense" // "sparse")).
Proof. emits_all; confined_event. Qed.

(** The conversion always returns [True], so the branch that copies the
    original reconstruction is never taken. *)
Ltac confined_step :=
  lazymatch goal with
  | |- emits _ (mbind _ (convert_cameras_to_pinhole _ _)) =>
      apply (emits_bind_with _ (λ b, b = true));
      [ apply convert_cameras_to_pinhole_confined
      | let E := fresh in
        intros ? ? ? E; apply convert_files in E as [_ E]; by apply E
      | intros ? ->; cbv beta; cbn [negb] ]
  | |- _ => emits_step
  end.

Lemma step_undistort_images_confined d sp :
  emits (confined sp) (step_undistort_images d (sp // "dense")).
Proof.
  unfold step_undistort_images.
  repeat first [ confined_step | emits_unfold ]; confined_event.
Qed.

(** Whatever the scene and the tools, the operations [main] itself
    issues stay in its two working directories below the resolved scene
    directory: it makes directories only at dense/, dense/sparse and
    mesh/mvs, makes and removes links only at dense/images, removes trees
    only at dense/images and dense/, writes only the three tables of
    dense/sparse and mesh/mvs/progress.json, and starts commands only in
    mesh/mvs.  It never copies a tree: the fallback that copies the
    original reconstruction cannot be reached, because the conversion
    returns [True] or raises. *)
Theorem main_operations_confined args σ sp :
  chase MAXSYMLINKS σ (scene_dir args) = Some sp →
  Forall (confined sp) (trace (main args (boot σ)).2).
Proof.
  intros Hsp. destruct (main args (boot σ)) as [o w'] eqn:Hrun. cbn [snd].
  revert Hrun. unfold main.
  lazymatch goal with
  | |- context [mbind ?K (resolve (scene_dir args))] => set (rest := K)
  end.
  assert (emits (confined sp) (rest sp)) as Hrest.
  { subst rest. cbv beta zeta.
    repeat first
      [ lazymatch goal with
        | |- emits _ (mbind _ (step_undistort_images _ _)) =>
            apply emits_bind; [apply step_undistort_images_confined | intros ?]
        end
      | emits_step | emits_unfold ]; confined_event. }
  run_cbv. cbn [boot files stdout trace app].
  rewrite check_dependencies_run. cbn [files stdout trace app].
  destruct (decide (missing_commands = [])).
  2:{ intros [= <- <-]. cbn [trace]. apply Forall_fmap, Forall_forall. done. }
  unfold resolve. run_cbv. rewrite Hsp. run_cbv.
  intros Hrun. destruct (Hrest _ _ _ Hrun) as (t & -> & Ht). cbn [trace].
  rewrite !Forall_app. split; [split|done].
  - apply Forall_fmap, Forall_forall. done.
  - by constructor.
Qed.

End Confined.


Section Dangling.
Context `{!Host}.



End Dangling.

(** * The progress record *)

Section Record.
Context `{!Host}.






End Record.

(** * The statements at concrete inputs *)

Lemma missing_tools_reported_together_witness :
  ∃ reported,
    reported ≡ₚ ["colmap"; "RefineMesh"]
    ∧ @main two_missing default_args (boot fresh_scene) =
        (Exit 1, mkWorld fresh_scene
                   (banner_lines default_args ++ missing_report reported)
                   (@which_events two_missing))
    ∧ runs (@which_events two_missing) = [].
Proof.
  apply (@missing_tools_reported_together two_missing default_args fresh_scene
           ["colmap"; "RefineMesh"]).
  - compute_done.
  - intros c. split.
    + intros Hc.
      repeat (apply elem_of_cons in Hc as [->|Hc];
              [split; [compute_done | reflexivity]|]).
      by apply elem_of_nil in Hc.
    + intros [Hc Hw].
      repeat (apply elem_of_cons in Hc as [->|Hc];
              [first [by vm_compute in Hw | compute_done]|]).
      by apply elem_of_nil in Hc.
  - discriminate.
Defined.

Lemma resume_gate_after_dependency_check_witness :
  skip_if_exists (skip_args false) = true
  ∧ chase MAXSYMLINKS (finished_scene false) (scene_dir (skip_args false))
    = Some scene
  ∧ path_exists (finished_scene false) (final_mesh_of scene false) = true
  ∧ exit_status (@main good_host (skip_args false) (boot (finished_scene false))).1
    = 0.
Proof.
  split; [reflexivity|]. split; [by vm_compute|]. split; [by vm_compute|].
  rewrite (@resume_gate_after_dependency_check good_host (skip_args false)
             (finished_scene false) scene);
    [| reflexivity | by vm_compute | by vm_compute].
  by vm_compute.
Defined.

(** C2 fails as stated: with [skip_if_exists] set and the final artifact
    on disk, but none of the required tools on the search path, the
    process exits with status 1, not 0. *)
Lemma resume_gate_needs_tools :
  skip_if_exists (skip_args false) = true
  ∧ path_exists (finished_scene false) (final_mesh_of scene false) = true
  ∧ (∀ c, @which bare_host c = false)
  ∧ exit_status (@main bare_host (skip_args false) (boot (finished_scene false))).1
    = 1.
Proof.
  split; [reflexivity|]. split; [by vm_compute|]. split; [done|]. by vm_compute.
Qed.

Lemma densify_output_absent_aborts_witness :
  EvRun ["DensifyPointCloud"; "scene.mvs"] (mvs_dir_of scene) 0 left_by_densify
    ∈ trace (@main densify_broken default_args (boot fresh_scene)).2
  ∧ path_exists left_by_densify (mvs_dir_of scene // "scene_dense.mvs") = false
  ∧ exit_status (@main densify_broken default_args (boot fresh_scene)).1 ≠ 0
  ∧ runs (trace (@main densify_broken default_args (boot fresh_scene)).2)
    = ["InterfaceCOLMAP"; "DensifyPointCloud"].
Proof.
  assert (EvRun ["DensifyPointCloud"; "scene.mvs"] (mvs_dir_of scene) 0
                left_by_densify
            ∈ trace (@main densify_broken default_args (boot fresh_scene)).2)
    as Hev by compute_done.
  assert (path_exists left_by_densify (mvs_dir_of scene // "scene_dense.mvs")
          = false) as Habs by by vm_compute.
  split; [exact Hev|]. split; [exact Habs|].
  destruct (@densify_output_absent_aborts densify_broken default_args fresh_scene
              _ _ _ _ Hev eq_refl Habs) as (Hexit & _ & Hruns & _).
  by split.
Defined.

Lemma image_check_passes_witness :
  chase MAXSYMLINKS fresh_scene (scene // "images") = Some (scene // "images")
  ∧ lstat fresh_scene (scene // "images") = Some Dir
  ∧ is_Some (fresh_scene !! (scene // "images" // "0001.jpg"))
  ∧ ".jpg" ∈ image_extensions
  ∧ chars ".jpg" `suffix_of` chars "0001.jpg"
  ∧ (EvStat (scene // "sparse")
       ∈ trace (validate_input_structure scene (boot fresh_scene)).2).
Proof.
  assert (chase MAXSYMLINKS fresh_scene (scene // "images")
          = Some (scene // "images")) as H1 by by vm_compute.
  assert (lstat fresh_scene (scene // "images") = Some Dir) as H2 by by vm_compute.
  assert (is_Some (fresh_scene !! (scene // "images" // "0001.jpg"))) as H3
    by (eexists; by vm_compute).
  assert (".jpg" ∈ image_extensions) as H4 by compute_done.
  assert (chars ".jpg" `suffix_of` chars "0001.jpg") as H5
    by by exists (chars "0001").
  repeat (split; [assumption|]).
  exact (proj1 (image_check_passes fresh_scene scene (scene // "images")
                  "0001.jpg" ".jpg" H1 H2 H3 H4 H5)).
Defined.

(** C5: the image check does not compare without regard to case.  The
    validator lists the lower-case and the upper-case spelling of each
    extension and matches each with regard to case, so a mixed-case
    spelling is missed: a directory whose only photo is 0001.Jpg, which
    ends in .jpg when case is ignored, is rejected with the no-images
    error, and the process exits with status 1. *)
Lemma mixed_case_extension_rejected :
  is_dir (scene_with_photo "0001.Jpg") (scene // "images") = true
  ∧ scene_with_photo "0001.Jpg" !! (scene // "images" // "0001.Jpg")
    = Some (File "photo")
  ∧ lower "0001.Jpg" = "0001" +:+ ".jpg"
  ∧ (validate_input_structure scene
       (boot (scene_with_photo "0001.Jpg"))).1 = Exit 1
  ∧ last (stdout (validate_input_structure scene
                    (boot (scene_with_photo "0001.Jpg"))).2)
    = Some "Error: No images found in /data/scene/images".
Proof. repeat split; by vm_compute. Qed.

Lemma rerun_is_noop_witness :
  (@main good_host default_args (boot fresh_scene)).1 = Ret tt
  ∧ ∀ n, (@main good_host (skip_args false)
            (boot (@reinvoke good_host n (skip_args false) (finished_scene false)))).1
         = Ret tt
         ∧ runs (trace (@main good_host (skip_args false)
              (boot (@reinvoke good_host n (skip_args false)
                       (finished_scene false)))).2) = []
         ∧ files (@main good_host (skip_args false)
              (boot (@reinvoke good_host n (skip_args false)
                       (finished_scene false)))).2 = finished_scene false.
Proof.
  split; [by vm_compute|].
  apply (@rerun_is_noop good_host default_args fresh_scene (skip_args false)
           (finished_scene false) scene).
  - by vm_compute.
  - reflexivity.
  - by vm_compute.
  - by vm_compute.
Defined.



Lemma colmap_required_never_run_witness :
  @which no_colmap "colmap" = false
  ∧ (∀ c, c ∈ required_commands → c ≠ "colmap" → @which no_colmap c = true)
  ∧ (@main no_colmap default_args (boot fresh_scene)).1 = Exit 1.
Proof.
  split; [reflexivity|]. split.
  - intros c Hc Hne.
    repeat (apply elem_of_cons in Hc as [->|Hc]; [done|]).
    by apply elem_of_nil in Hc.
  - exact (proj1 (proj1 (@colmap_required_never_run no_colmap default_args
                           fresh_scene) eq_refl)).
Defined.




(** * The further statements at concrete inputs *)

Lemma dependency_check_passes_iff_all_resolve_witness :
  (∀ c, c ∈ required_commands → @which good_host c = true)
  ∧ (@check_dependencies good_host (boot fresh_scene)).1 = Ret tt.
Proof.
  assert (∀ c, c ∈ required_commands → @which good_host c = true) as Hall by done.
  split; [exact Hall|].
  exact (proj2 (proj1 (@dependency_check_passes_iff_all_resolve good_host
                         (boot fresh_scene))) Hall).
Defined.


Lemma validation_names_first_missing_table_witness :
  nameable scene
  ∧ canonical scene_without_poses (scene // "sparse" // "images.bin")
  ∧ required_files = ["cameras.bin"] ++ "images.bin" :: ["points3D.bin"]
  ∧ path_exists scene_without_poses (scene // "sparse" // "images.bin") = false
  ∧ (validate_input_structure scene (boot scene_without_poses)).1 = Exit 1
  ∧ last (stdout (validate_input_structure scene (boot scene_without_poses)).2)
    = Some ("Error: Required file not found: "
            +:+ show_path (scene // "sparse" // "images.bin")).
Proof.
  assert (nameable scene) as Hname by compute_done.
  assert (canonical scene_without_poses (scene // "sparse" // "images.bin"))
    as Hcan by compute_done.
  assert (path_exists scene_without_poses (scene // "sparse" // "images.bin")
          = false) as Hf by by vm_compute.
  split; [exact Hname|]. split; [exact Hcan|].
  split; [reflexivity|]. split; [exact Hf|].
  destruct (validation_names_first_missing_table scene (boot scene_without_poses)
              ["cameras.bin"] "images.bin" ["points3D.bin"] Hname Hcan)
    as (He & Hl & _).
  - reflexivity.
  - by vm_compute.
  - by vm_compute.
  - by vm_compute.
  - intros g Hg. apply elem_of_cons in Hg as [->|Hg]; [by vm_compute|].
    by apply elem_of_nil in Hg.
  - exact Hf.
  - by split.
Defined.

Lemma image_count_is_exact_witness :
  chase MAXSYMLINKS fresh_scene (scene // "images") = Some (scene // "images")
  ∧ lstat fresh_scene (scene // "images") = Some Dir
  ∧ length (filter has_image_extension (scandir fresh_scene (scene // "images")))
    = 1%nat
  ∧ if decide (filter has_image_extension
                      (scandir (files (boot fresh_scene)) (scene // "images")) = [])
    then (validate_input_structure scene (boot fresh_scene)).1 = Exit 1
         ∧ stdout (validate_input_structure scene (boot fresh_scene)).2
           = stdout (boot fresh_scene)
             ++ ["Error: No images found in " +:+ show_path (scene // "images")]
    else ∃ rest,
           stdout (validate_input_structure scene (boot fresh_scene)).2
           = stdout (boot fresh_scene)
             ++ ["Found "
                 +:+ pretty (length (filter has_image_extension
                                       (scandir (files (boot fresh_scene))
                                                (scene // "images"))))
                 +:+ " images in " +:+ show_path (scene // "images")]
             ++ rest.
Proof.
  assert (chase MAXSYMLINKS fresh_scene (scene // "images")
          = Some (scene // "images")) as H1 by by vm_compute.
  assert (lstat fresh_scene (scene // "images") = Some Dir) as H2 by by vm_compute.
  split; [exact H1|]. split; [exact H2|]. split; [by vm_compute|].
  exact (image_count_is_exact scene (boot fresh_scene) (scene // "images") H1 H2).
Defined.

Lemma working_copy_cameras_are_pinhole_witness :
  NoDup sample_cameras.*1
  ∧ (@convert_cameras_to_pinhole (with_cameras sample_cameras) (scene // "sparse")
       (scene // "dense" // "sparse") (boot fresh_scene)).1 = Ret true
  ∧ ∃ cams,
      Forall2 (λ kc kc', kc'.1 = kc.1 ∧ normalized kc.1 kc.2 kc'.2)
              sample_cameras cams
      ∧ trace (@convert_cameras_to_pinhole (with_cameras sample_cameras)
                 (scene // "sparse") (scene // "dense" // "sparse")
                 (boot fresh_scene)).2
        = trace (boot fresh_scene)
          ++ [EvLoadReconstruction (scene // "sparse");
              EvMakedirs (scene // "dense" // "sparse");
              EvWrite (scene // "dense" // "sparse" // cameras_bin)
                      (@dump_cameras (with_cameras sample_cameras) cams);
              EvWrite (scene // "dense" // "sparse" // images_bin) "i";
              EvWrite (scene // "dense" // "sparse" // points3D_bin) "p"].
Proof.
  assert (NoDup sample_cameras.*1) as Hnd by compute_done.
  assert ((@convert_cameras_to_pinhole (with_cameras sample_cameras)
             (scene // "sparse") (scene // "dense" // "sparse")
             (boot fresh_scene)).1 = Ret true) as Hret by by vm_compute.
  split; [exact Hnd|]. split; [exact Hret|].
  apply (@working_copy_cameras_are_pinhole (with_cameras sample_cameras)
           (scene // "sparse") (scene // "dense" // "sparse") (boot fresh_scene)
           "c" "i" "p" (mkReconstruction sample_cameras "i" "p")).
  - by vm_compute.
  - by vm_compute.
  - by vm_compute.
  - reflexivity.
  - exact Hnd.
  - exact Hret.
Defined.

Lemma short_parameter_list_raises_witness :
  Exists (λ kc : Z * Camera, short kc.2) short_cameras
  ∧ (@convert_cameras_to_pinhole (with_cameras short_cameras) (scene // "sparse")
       (scene // "dense" // "sparse") (boot fresh_scene)).1 = Raise IndexError.
Proof.
  assert (Exists (λ kc : Z * Camera, short kc.2) short_cameras) as Hs
    by (apply Exists_cons_hd; compute_done).
  split; [exact Hs|].
  refine (proj2 (proj1 (@short_parameter_list_raises (with_cameras short_cameras)
                          (scene // "sparse") (scene // "dense" // "sparse")
                          (boot fresh_scene) "c" "i" "p"
                          (mkReconstruction short_cameras "i" "p") _ _ _ _)) Hs);
    first [by vm_compute | reflexivity].
Defined.


Lemma stages_run_in_order_witness :
  no_texture untextured_args = true
  ∧ "TextureMesh"
      ∉ runs (trace (@main good_host untextured_args (boot fresh_scene)).2).
Proof.
  split; [reflexivity|].
  exact (proj2 (proj2 (@stages_run_in_order good_host untextured_args fresh_scene))
           eq_refl).
Defined.



Lemma main_operations_confined_witness :
  chase MAXSYMLINKS fresh_scene (scene_dir default_args) = Some scene
  ∧ Forall (confined scene)
           (trace (@main good_host default_args (boot fresh_scene)).2).
Proof.
  assert (chase MAXSYMLINKS fresh_scene (scene_dir default_args) = Some scene)
    as Hsp by by vm_compute.
  split; [exact Hsp|].
  exact (@main_operations_confined good_host default_args fresh_scene scene Hsp).
Defined.

